(** * ramen ring buffer: backing store (src/ringbuf/ringbuf.c) and protocol

    The development has three parts.

    - [Machine], [Image]: the C data model the code is compiled for (LP64:
      [unsigned] and [uint32_t] are 32 bits wide, [size_t] and [off_t] 64 bits
      wide, little-endian byte order) and the memory image of
      [struct ringbuf].  The structure is declared in [ringbuf.h], which is
      not part of the sources at hand; its layout (size, field offsets, width
      of [mmapped_size]) is therefore a parameter, [layout], and the layout
      of the specification (six [u32], 24 bytes) is one instance of it.
    - [Sys], [Ringbuf]: the system calls used by [ringbuf.c] as operations on
      an explicit world (file system, live mappings, log of system calls),
      and [ringbuf_create] and [ringbuf_load] written over them statement
      by statement.  Whether a system call fails for a reason
      outside the model is read from an oracle.  Diagnostics written to
      [stderr] are not modelled.
    - [Protocol]: the enqueue / dequeue protocol.  Its code lives in
      [ringbuf.h] (the functions are only declared [extern inline] in
      [ringbuf.c]); it is modelled from the specification, for one sequential
      caller. *)

From Stdlib Require Import ZArith Lia.
From Stdlib Require Import Strings.Byte.
From stdpp Require Import gmap strings list.

Open Scope Z_scope.

(** ** Machine integers *)

Module Machine.

(** Conversion to an unsigned integer type of [bits] bits. *)
Definition wrap (bits : Z) (z : Z) : Z := z mod 2 ^ bits.

(** [unsigned], [uint32_t] *)
Definition u32 (z : Z) : Z := wrap 32 z.

(** [size_t] *)
Definition usize (z : Z) : Z := wrap 64 z.

Definition UINT32_MAX : Z := 2 ^ 32 - 1.

Definition is_u32 (z : Z) : Prop := 0 <= z < 2 ^ 32.

Definition Z_of_byte (b : byte) : Z := Z.of_N (Byte.to_N b).

Definition byte_of_Z (z : Z) : byte :=
  match Byte.of_N (Z.to_N (z mod 256)) with
  | Some b => b
  | None => x00
  end.

(** Little-endian object representation of an unsigned integer of [w] bytes. *)
Fixpoint le_encode (w : nat) (v : Z) : list byte :=
  match w with
  | O => []
  | S w' => byte_of_Z v :: le_encode w' (v / 256)
  end.

Fixpoint le_decode (bs : list byte) : Z :=
  match bs with
  | [] => 0
  | b :: bs' => Z_of_byte b + 256 * le_decode bs'
  end.

(** Read, respectively overwrite, the [w] bytes at offset [off] of a memory
    image.  Every use below is within the bounds of the image. *)
Definition load_le (off w : nat) (m : list byte) : Z :=
  le_decode (take w (drop off m)).

Definition store_le (off w : nat) (v : Z) (m : list byte) : list byte :=
  take off m ++ le_encode w v ++ drop (off + w) m.

End Machine.

Export Machine.

(** ** Memory image of [struct ringbuf] *)

Module Image.

(** Layout of [struct ringbuf]: its size and, for each field the code names,
    the offset of the field.  The five counters are [uint32_t]; the width of
    [mmapped_size] is part of the layout. *)
Record layout : Type := Layout {
  sizeof_rb : nat;
  off_nb_words : nat;
  off_mmapped_size : nat;
  sz_mmapped_size : nat;
  off_prod_head : nat;
  off_prod_tail : nat;
  off_cons_head : nat;
  off_cons_tail : nat
}.

(** Modelled from the spec: [struct ringbuf] of [ringbuf.h], which is not
    among the sources.  Section 6.1 gives the header as six consecutive
    [u32]: [nb_words], [mapped_size], [prod_head], [prod_tail], [cons_head],
    [cons_tail]. *)
Definition spec_layout : layout :=
  {| sizeof_rb := 24;
     off_nb_words := 0;
     off_mmapped_size := 4; sz_mmapped_size := 4;
     off_prod_head := 8; off_prod_tail := 12;
     off_cons_head := 16; off_cons_tail := 20 |}.

(** The same fields with a [size_t mmapped_size], naturally aligned. *)
Definition wide_layout : layout :=
  {| sizeof_rb := 32;
     off_nb_words := 0;
     off_mmapped_size := 8; sz_mmapped_size := 8;
     off_prod_head := 16; off_prod_tail := 20;
     off_cons_head := 24; off_cons_tail := 28 |}.

(** A field as (offset, width). *)
Definition fields (L : layout) : list (nat * nat) :=
  [ (off_nb_words L, 4%nat); (off_mmapped_size L, sz_mmapped_size L);
    (off_prod_head L, 4%nat); (off_prod_tail L, 4%nat);
    (off_cons_head L, 4%nat); (off_cons_tail L, 4%nat) ].

Definition disjointb (f g : nat * nat) : bool :=
  Nat.leb (f.1 + f.2) g.1 || Nat.leb (g.1 + g.2) f.1.

Fixpoint pairwise_disjoint (fs : list (nat * nat)) : bool :=
  match fs with
  | [] => true
  | f :: fs' => forallb (disjointb f) fs' && pairwise_disjoint fs'
  end.

(** Fields lie inside the structure and do not overlap; the structure is
    small enough (below [2^32] bytes) for the sizes of buffer files to be
    [off_t] values. *)
Definition layout_ok (L : layout) : bool :=
  forallb (fun f => Nat.leb (f.1 + f.2) (sizeof_rb L)) (fields L)
  && pairwise_disjoint (fields L)
  && (Z.of_nat (sizeof_rb L) <? 2 ^ 32).

(** The header as the code sees it through a [struct ringbuf *]. *)
Record header : Type := Header {
  nb_words : Z;
  mmapped_size : Z;
  prod_head : Z;
  prod_tail : Z;
  cons_head : Z;
  cons_tail : Z
}.

Section WithLayout.
Variable L : layout.

Definition get_nb_words (m : list byte) : Z := load_le (off_nb_words L) 4 m.
Definition get_mmapped_size (m : list byte) : Z :=
  load_le (off_mmapped_size L) (sz_mmapped_size L) m.
Definition get_prod_head (m : list byte) : Z := load_le (off_prod_head L) 4 m.
Definition get_prod_tail (m : list byte) : Z := load_le (off_prod_tail L) 4 m.
Definition get_cons_head (m : list byte) : Z := load_le (off_cons_head L) 4 m.
Definition get_cons_tail (m : list byte) : Z := load_le (off_cons_tail L) 4 m.

Definition set_nb_words (v : Z) (m : list byte) : list byte :=
  store_le (off_nb_words L) 4 v m.
Definition set_mmapped_size (v : Z) (m : list byte) : list byte :=
  store_le (off_mmapped_size L) (sz_mmapped_size L) v m.
Definition set_prod_head (v : Z) (m : list byte) : list byte :=
  store_le (off_prod_head L) 4 v m.
Definition set_prod_tail (v : Z) (m : list byte) : list byte :=
  store_le (off_prod_tail L) 4 v m.
Definition set_cons_head (v : Z) (m : list byte) : list byte :=
  store_le (off_cons_head L) 4 v m.
Definition set_cons_tail (v : Z) (m : list byte) : list byte :=
  store_le (off_cons_tail L) 4 v m.

(** The header held by the first [sizeof_rb] bytes of a file or mapping. *)
Definition header_of (m : list byte) : header :=
  {| nb_words := get_nb_words m;
     mmapped_size := get_mmapped_size m;
     prod_head := get_prod_head m;
     prod_tail := get_prod_tail m;
     cons_head := get_cons_head m;
     cons_tail := get_cons_tail m |}.
End WithLayout.

End Image.

Export Image.

(** ** System calls over an explicit world *)

Module Sys.

Inductive syscall : Type :=
  | SysUnlink | SysOpen | SysFtruncate | SysWrite | SysClose
  | SysLseek | SysMmap | SysMunmap.

#[global] Instance syscall_eq_dec : EqDecision syscall.
Proof. solve_decision. Defined.

(** One entry of the log: the call, the file it was about, whether it
    succeeded. *)
Record event : Type := Ev { ev_call : syscall; ev_path : string; ev_ok : bool }.

(** A live mapping: the mapped file and the length of the mapping.  All
    mappings of the code are [MAP_SHARED] from offset 0, so that memory
    accesses through one read and write the bytes of the file. *)
Definition mapping : Type := string * Z.

(** A [struct ringbuf *]: [None] is [NULL]. *)
Definition ptr : Type := option mapping.

(** A file descriptor, named by the file it is open on; [None] is [-1]. *)
Definition fd : Type := option string.

Record world : Type := World {
  w_fs : gmap string (list byte);
  w_maps : list mapping;
  w_log : list event
}.

Definition set_fs (f : gmap string (list byte) -> gmap string (list byte))
    (w : world) : world :=
  {| w_fs := f (w_fs w); w_maps := w_maps w; w_log := w_log w |}.

Definition set_maps (f : list mapping -> list mapping) (w : world) : world :=
  {| w_fs := w_fs w; w_maps := f (w_maps w); w_log := w_log w |}.

Definition log (c : syscall) (p : string) (ok : bool) (w : world) : world :=
  {| w_fs := w_fs w; w_maps := w_maps w;
     w_log := w_log w ++ [Ev c p ok] |}.

(** A run either returns a value in a new world, or faults: it performs an
    access through a pointer that designates no live mapping (a null or a
    dangling pointer), which C leaves undefined. *)
Inductive outcome (A : Type) : Type :=
  | Ret (a : A) (w : world)
  | Fault (w : world).

Arguments Ret {A} a w.
Arguments Fault {A} w.

Definition M (A : Type) : Type := world -> outcome A.

Definition ret {A} (a : A) : M A := fun w => Ret a w.

Definition bind {A B} (m : M A) (k : A -> M B) : M B :=
  fun w => match m w with
           | Ret a w' => k a w'
           | Fault w' => Fault w'
           end.

Notation "'do' x <- m ; k" := (bind m (fun x => k))
  (at level 10, x name, m at level 100, k at level 200).
Notation "'run' m ; k" := (bind m (fun _ => k))
  (at level 10, m at level 100, k at level 200).

(** Short-circuit [&&] of two effectful conditions. *)
Definition andM (a b : M bool) : M bool :=
  do x <- a; if x then b else ret false.

(** [unlink(p)]: removes the file unless it does not exist ([ENOENT]) or the
    environment refuses ([ok = false]). *)
Definition sys_unlink (ok : bool) (p : string) : M Z := fun w =>
  match w_fs w !! p with
  | Some _ =>
      if ok then Ret 0 (log SysUnlink p true (set_fs (delete p) w))
      else Ret (-1) (log SysUnlink p false w)
  | None => Ret (-1) (log SysUnlink p false w)
  end.

(** [open(p, O_RDWR|O_CREAT|O_EXCL, ...)]: fails when the path exists
    ([EEXIST]) or the environment refuses; otherwise creates an empty file. *)
Definition sys_open_creat_excl (ok : bool) (p : string) : M fd := fun w =>
  match w_fs w !! p with
  | Some _ => Ret None (log SysOpen p false w)
  | None =>
      if ok then Ret (Some p) (log SysOpen p true (set_fs <[p := []]> w))
      else Ret None (log SysOpen p false w)
  end.

(** [open(p, O_RDWR, ...)]: the file must exist. *)
Definition sys_open_rdwr (ok : bool) (p : string) : M fd := fun w =>
  match w_fs w !! p with
  | Some _ =>
      if ok then Ret (Some p) (log SysOpen p true w)
      else Ret None (log SysOpen p false w)
  | None => Ret None (log SysOpen p false w)
  end.

(** [ftruncate(fd, len)]: cuts the file, or extends it with zero bytes. *)
Definition sys_ftruncate (ok : bool) (p : string) (len : Z) : M Z := fun w =>
  match w_fs w !! p with
  | Some c =>
      if ok then
        Ret 0 (log SysFtruncate p true
                 (set_fs <[p := resize (Z.to_nat len) x00 c]> w))
      else Ret (-1) (log SysFtruncate p false w)
  | None => Ret (-1) (log SysFtruncate p false w)
  end.

(** [write(fd, buf, |buf|)] on a descriptor whose offset is 0.  The
    environment's answer [res] is negative for an error, otherwise the number
    of bytes it accepts; at most [|buf|] bytes are written. *)
Definition sys_write (res : Z) (p : string) (buf : list byte) : M Z := fun w =>
  match w_fs w !! p with
  | Some c =>
      if res <? 0 then Ret (-1) (log SysWrite p false w)
      else
        let n := Nat.min (Z.to_nat res) (length buf) in
        Ret (Z.of_nat n)
            (log SysWrite p true (set_fs <[p := take n buf ++ drop n c]> w))
  | None => Ret (-1) (log SysWrite p false w)
  end.

Definition sys_close (ok : bool) (p : string) : M Z := fun w =>
  if ok then Ret 0 (log SysClose p true w) else Ret (-1) (log SysClose p false w).

(** [lseek(fd, 0, SEEK_END)]: the length of the file, or [(off_t)-1]. *)
Definition sys_lseek_end (ok : bool) (p : string) : M Z := fun w =>
  match w_fs w !! p with
  | Some c =>
      if ok then Ret (Z.of_nat (length c)) (log SysLseek p true w)
      else Ret (-1) (log SysLseek p false w)
  | None => Ret (-1) (log SysLseek p false w)
  end.

(** [mmap(NULL, len, PROT_READ|PROT_WRITE, MAP_SHARED, fd, 0)]; [None] is
    [MAP_FAILED]. *)
Definition sys_mmap (ok : bool) (p : string) (len : Z) : M (option mapping) :=
  fun w =>
    if ok then Ret (Some (p, len)) (log SysMmap p true (set_maps (cons (p, len)) w))
    else Ret None (log SysMmap p false w).

(** The live mappings once [m] is unmapped, as [ringbuf_load] does with the
    mapping it has just made; mappings are told apart by file and length. *)
Definition remove_mapping (m : mapping) (ms : list mapping) : list mapping :=
  filter (fun m' => m' <> m) ms.

(** [munmap(rb, len)] of a mapping obtained from [sys_mmap]. *)
Definition sys_munmap (ok : bool) (m : mapping) (len : Z) : M Z := fun w =>
  if ok then
    Ret 0 (log SysMunmap m.1 true (set_maps (remove_mapping (m.1, len)) w))
  else Ret (-1) (log SysMunmap m.1 false w).

(** The bytes a pointer designates, when it points to a live mapping.  The
    mapped file is found by its path: this is the mapping's own file as
    long as the path has not been unlinked or given another file since the
    mapping was made, and the statements below are about such worlds. *)
Definition deref (rb : ptr) (w : world) : option (string * list byte) :=
  match rb with
  | Some m =>
      if decide (m ∈ w_maps w) then
        match w_fs w !! m.1 with
        | Some c => Some (m.1, c)
        | None => None
        end
      else None
  | None => None
  end.

(** [rb->field] as an rvalue. *)
Definition mem_load (rb : ptr) (get : list byte -> Z) : M Z := fun w =>
  match deref rb w with
  | Some (_, c) => Ret (get c) w
  | None => Fault w
  end.

(** [rb->field = v]. *)
Definition mem_store (rb : ptr) (set : list byte -> list byte) : M unit :=
  fun w =>
    match deref rb w with
    | Some (p, c) => Ret tt (set_fs <[p := set c]> w)
    | None => Fault w
    end.

(** One attachment less: the first occurrence of [m] is dropped, the other
    attachments of the same file stay. *)
Fixpoint remove_one (m : mapping) (ms : list mapping) : list mapping :=
  match ms with
  | [] => []
  | m' :: ms' => if decide (m' = m) then ms' else m' :: remove_one m ms'
  end.

(** [munmap(rb, len)] with the address held in [rb] and any length, as
    [ringbuf_unload] calls it.  A zero length is refused ([EINVAL]).
    Otherwise the pages from that address on are unmapped, the one holding
    the header among them: the attachment [rb] stands for is released, and
    only that one (a file attached twice stays attached once); at [NULL]
    there is nothing to unmap. *)
Definition sys_munmap_ptr (ok : bool) (rb : ptr) (len : Z) : M Z := fun w =>
  let p := match rb with Some m => m.1 | None => EmptyString end in
  if len =? 0 then Ret (-1) (log SysMunmap p false w)
  else if ok then
    Ret 0 (log SysMunmap p true
             (match rb with
              | Some m => set_maps (remove_one m) w
              | None => w
              end))
  else Ret (-1) (log SysMunmap p false w).

End Sys.

Export Sys.

(** ** ringbuf.c *)

Module Ringbuf.

(** What the environment answers to the system calls of one
    [ringbuf_create], and the bytes found in the uninitialised
    [struct ringbuf rb] on its stack. *)
Record create_env : Type := CreateEnv {
  ce_unlink : bool;
  ce_open : bool;
  ce_ftruncate : bool;
  ce_write : Z;
  ce_close : bool;
  ce_stack : list byte
}.

(** What the environment answers to the system calls of one
    [ringbuf_load]. *)
Record load_env : Type := LoadEnv {
  ld_open : bool;
  ld_lseek : bool;
  ld_mmap : bool;
  ld_munmap : bool;
  ld_close : bool
}.

(** [static bool check_header_eq(fname, what, unsigned expected, unsigned actual)]:
    both values are converted to [unsigned] on entry. *)
Definition check_header_eq (expected actual : Z) : bool :=
  u32 expected =? u32 actual.

(** [static bool check_header_max(fname, what, unsigned max, unsigned actual)] *)
Definition check_header_max (max actual : Z) : bool :=
  u32 actual <? u32 max.

Section WithLayout.
Variable L : layout.

(** [sizeof(struct ringbuf)], a [size_t]. *)
Definition sizeof : Z := Z.of_nat (sizeof_rb L).

(** [struct ringbuf rb; rb.nb_words = tot_words;
    rb.prod_head = rb.prod_tail = 0; rb.cons_head = rb.cons_tail = 0;]
    [mmapped_size] and any padding keep what the stack held. *)
Definition initial_rb (stack : list byte) (tot_words : Z) : list byte :=
  let rb := resize (sizeof_rb L) x00 stack in
  let rb := set_nb_words L tot_words rb in
  let rb := set_prod_tail L 0 rb in
  let rb := set_prod_head L 0 rb in
  let rb := set_cons_tail L 0 rb in
  set_cons_head L 0 rb.

(** [extern int ringbuf_create(char const *fname, uint32_t tot_words)].
    The result of [unlink] only selects a diagnostic.  A branch that ends in
    [ret (-1)] without closing is [goto err0]; one that closes first is
    [goto err1], where [ret] still holds -1; the last one falls through
    [ret = 0] into [err1].  The result of [close] only selects a
    diagnostic. *)
Definition ringbuf_create (e : create_env) (fname : string) (tot_words : Z)
    : M Z :=
  run sys_unlink (ce_unlink e) fname;
  do fd <- sys_open_creat_excl (ce_open e) fname;
  match fd with
  | None => ret (-1)
  | Some fd =>
      let file_length := usize (sizeof + usize (tot_words * 4)) in
      do r <- sys_ftruncate (ce_ftruncate e) fd file_length;
      if r <? 0 then
        run sys_close (ce_close e) fd; ret (-1)
      else
        let rb := initial_rb (ce_stack e) tot_words in
        do w <- sys_write (ce_write e) fd rb;
        if w <? 0 then
          run sys_close (ce_close e) fd; ret (-1)
        else if usize w <? sizeof then
          run sys_close (ce_close e) fd; ret (-1)
        else
          run sys_close (ce_close e) fd; ret 0
  end.

(** The condition of the [// Sanity checks] statement, evaluated left to
    right through [rb]. *)
Definition sanity_checks (rb : ptr) (file_length : Z) : M bool :=
  andM (do n <- mem_load rb (get_nb_words L);
        ret (check_header_eq (usize (usize (n * 4) + sizeof)) file_length))
 (andM (do n <- mem_load rb (get_nb_words L);
        do c <- mem_load rb (get_prod_head L);
        ret (check_header_max n c))
 (andM (do n <- mem_load rb (get_nb_words L);
        do c <- mem_load rb (get_prod_tail L);
        ret (check_header_max n c))
 (andM (do n <- mem_load rb (get_nb_words L);
        do c <- mem_load rb (get_cons_head L);
        ret (check_header_max n c))
       (do n <- mem_load rb (get_nb_words L);
        do c <- mem_load rb (get_cons_tail L);
        ret (check_header_max n c))))).

(** [extern struct ringbuf *ringbuf_load(char const *fname)].  [rb] starts
    as [NULL]; the branches that close and return [None] are [goto err1]
    taken before [rb] is assigned, or with [rb] reset to [NULL] after
    [MAP_FAILED].  After the sanity checks there is no jump: the statement
    [rb->mmapped_size = file_length] is executed whether or not the checks
    reset [rb] to [NULL]. *)
Definition ringbuf_load (e : load_env) (fname : string) : M ptr :=
  do fd <- sys_open_rdwr (ld_open e) fname;
  match fd with
  | None => ret None
  | Some fd =>
      do file_length <- sys_lseek_end (ld_lseek e) fd;
      if file_length =? -1 then
        run sys_close (ld_close e) fd; ret None
      else if usize file_length <=? sizeof then
        run sys_close (ld_close e) fd; ret None
      else
        do rb <- sys_mmap (ld_mmap e) fd (usize file_length);
        match rb with
        | None =>
            run sys_close (ld_close e) fd; ret None
        | Some m =>
            do ok <- sanity_checks (Some m) file_length;
            do rb <- (if negb ok then
                        run sys_munmap (ld_munmap e) m (usize file_length);
                        ret None
                      else ret (Some m));
            run mem_store rb (set_mmapped_size L file_length);
            run sys_close (ld_close e) fd;
            ret rb
        end
  end.

(** [int ringbuf_unload(struct ringbuf *rb)]: the argument
    [rb->mmapped_size] is read through [rb] and converted to [size_t], then
    [munmap] is called; [unmap_ok] is what the environment answers to it. *)
Definition ringbuf_unload (unmap_ok : bool) (rb : ptr) : M Z :=
  do sz <- mem_load rb (get_mmapped_size L);
  do r <- sys_munmap_ptr unmap_ok rb (usize sz);
  if negb (0 =? r) then ret (-1) else ret 0.
End WithLayout.

End Ringbuf.

Export Ringbuf.

(** ** Vocabulary of the statements about [ringbuf.c] *)

Module Outcomes.

Section WithLayout.
Variable L : layout.

(** The file a successful [ringbuf_create] leaves: the header image followed
    by a zeroed data area of [tot_words] words. *)
Definition fresh_file (stack : list byte) (tot_words : Z) : list byte :=
  initial_rb L stack tot_words ++ replicate (Z.to_nat (tot_words * 4)) x00.

(** The file after [ftruncate] and a write of the first [n] bytes of the
    header image only. *)
Definition partial_file (stack : list byte) (tot_words : Z) (n : nat)
    : list byte :=
  take n (initial_rb L stack tot_words)
  ++ drop n (replicate (Z.to_nat (sizeof L + tot_words * 4)) x00).

(** Whether the [unlink] call of [ringbuf_create] removes a file. *)
Definition unlinked (e : create_env) (fname : string) (w : world) : bool :=
  match w_fs w !! fname with
  | Some _ => ce_unlink e
  | None => false
  end.

(** The file system [ringbuf_create] sees after its [unlink] call. *)
Definition fs_after_unlink (e : create_env) (fname : string) (w : world)
    : gmap string (list byte) :=
  if unlinked e fname w then delete fname (w_fs w) else w_fs w.

(** Whether the new file can be created ([open] with [O_CREAT|O_EXCL]
    succeeds), sized ([ftruncate] succeeds) and its header fully written
    ([write] takes all [sizeof(rb)] bytes). *)
Definition created (e : create_env) (fname : string) (w : world) : bool :=
  match fs_after_unlink e fname w !! fname with
  | Some _ => false
  | None => ce_open e
  end.

Definition sized (e : create_env) : bool := ce_ftruncate e.

Definition written (e : create_env) : bool := sizeof L <=? ce_write e.

(** Bytes of the header that reach the file. *)
Definition written_bytes (e : create_env) : nat :=
  Nat.min (Z.to_nat (ce_write e)) (sizeof_rb L).

(** The value of the [// Sanity checks] condition on a mapped file with
    bytes [c], as the code computes it. *)
Definition checks (c : list byte) (file_length : Z) : bool :=
  check_header_eq (usize (usize (get_nb_words L c * 4) + sizeof L)) file_length
  && check_header_max (get_nb_words L c) (get_prod_head L c)
  && check_header_max (get_nb_words L c) (get_prod_tail L c)
  && check_header_max (get_nb_words L c) (get_cons_head L c)
  && check_header_max (get_nb_words L c) (get_cons_tail L c).

(** The validation of section 4.2 of the specification, on exact integers:
    (a) the file size is [sizeof(header) + nb_words * 4]; (b) each counter is
    strictly less than [nb_words]. *)
Definition valid_file (c : list byte) : Prop :=
  Z.of_nat (length c) = sizeof L + get_nb_words L c * 4 /\
  get_prod_head L c < get_nb_words L c /\
  get_prod_tail L c < get_nb_words L c /\
  get_cons_head L c < get_nb_words L c /\
  get_cons_tail L c < get_nb_words L c.

End WithLayout.

(** File lengths are [off_t] values. *)
Definition off_t_size (c : list byte) : Prop := Z.of_nat (length c) < 2 ^ 63.

(** The events a call appended to the log. *)
Definition new_events (w w' : world) (evs : list event) : Prop :=
  w_log w' = w_log w ++ evs.

(** [ringbuf_load] returned a usable handle. *)
Definition attached (o : outcome ptr) : Prop :=
  exists (m : mapping) (w' : world), o = Ret (Some m) w' /\ m ∈ w_maps w'.

End Outcomes.

Export Outcomes.

(** ** The enqueue / dequeue protocol, for one sequential caller *)

Module Protocol.

(** Modelled from the spec: the mapped region of section 3 and section 6.1,
    whose structure and accessors are in [ringbuf.h] (not among the
    sources): the capacity, the four counters, and the data area of
    [nb_words] words.  Words and counters are kept as integers. *)
Record ringbuf : Type := RingBuf {
  rb_nb_words : Z;
  rb_prod_head : Z;
  rb_prod_tail : Z;
  rb_cons_head : Z;
  rb_cons_tail : Z;
  rb_data : list Z
}.

(** Modelled from the spec: the transaction of section 3 ([struct ringbuf_tx]
    in [ringbuf.h]): the head snapshot the reservation started from, the head
    after it, the index of the first payload word, the payload length and
    whether the reservation wrapped. *)
Record ringbuf_tx : Type := Tx {
  tx_seen : Z;
  tx_next : Z;
  tx_start : Z;
  tx_len : Z;
  tx_wrapped : bool
}.

(** Modelled from the spec: the error kinds of section 7 a transaction can
    end with.  [STALLED] stands for a publication step (step 7) that waits
    for another participant: a lone caller would spin there for ever. *)
Inductive error : Type := NOT_ENOUGH_SPACE | EMPTY | STALLED.

Inductive result (A : Type) : Type :=
  | Ok (a : A)
  | Err (e : error).

Arguments Ok {A} a.
Arguments Err {A} e.

(** Modelled from the spec: section 4.1.5,
    [nb_entries(P_t, C_h) = (P_t - C_h) mod nb_words]. *)
Definition ringbuf_nb_entries (rb : ringbuf) (prod_tail cons_head : Z) : Z :=
  (prod_tail - cons_head) mod rb_nb_words rb.

(** Modelled from the spec: section 4.1.5,
    [nb_free(P_h, C_t) = (C_t - P_h - 1) mod nb_words]. *)
Definition ringbuf_nb_free (rb : ringbuf) (prod_head cons_tail : Z) : Z :=
  (cons_tail - prod_head - 1) mod rb_nb_words rb.

(** Modelled from the spec: a freshly created buffer of section 3, all four
    counters zero over a zero-initialised data area. *)
Definition fresh (n : Z) : ringbuf :=
  {| rb_nb_words := n;
     rb_prod_head := 0; rb_prod_tail := 0;
     rb_cons_head := 0; rb_cons_tail := 0;
     rb_data := replicate (Z.to_nat n) 0 |}.

(** [data[i]], and the [len] words from [data[i]] on. *)
Definition read_word (rb : ringbuf) (i : Z) : Z :=
  default 0 (rb_data rb !! Z.to_nat i).

Definition read_words (rb : ringbuf) (i len : Z) : list Z :=
  take (Z.to_nat len) (drop (Z.to_nat i) (rb_data rb)).

(** Store the words [ws] from [data[i]] on. *)
Definition write_words (i : Z) (ws : list Z) (rb : ringbuf) : ringbuf :=
  {| rb_nb_words := rb_nb_words rb;
     rb_prod_head := rb_prod_head rb; rb_prod_tail := rb_prod_tail rb;
     rb_cons_head := rb_cons_head rb; rb_cons_tail := rb_cons_tail rb;
     rb_data := list_inserts (Z.to_nat i) ws (rb_data rb) |}.

(** Store [v] into one of the counters. *)
Definition with_prod_head (v : Z) (rb : ringbuf) : ringbuf :=
  {| rb_nb_words := rb_nb_words rb;
     rb_prod_head := v; rb_prod_tail := rb_prod_tail rb;
     rb_cons_head := rb_cons_head rb; rb_cons_tail := rb_cons_tail rb;
     rb_data := rb_data rb |}.

Definition with_prod_tail (v : Z) (rb : ringbuf) : ringbuf :=
  {| rb_nb_words := rb_nb_words rb;
     rb_prod_head := rb_prod_head rb; rb_prod_tail := v;
     rb_cons_head := rb_cons_head rb; rb_cons_tail := rb_cons_tail rb;
     rb_data := rb_data rb |}.

Definition with_cons_head (v : Z) (rb : ringbuf) : ringbuf :=
  {| rb_nb_words := rb_nb_words rb;
     rb_prod_head := rb_prod_head rb; rb_prod_tail := rb_prod_tail rb;
     rb_cons_head := v; rb_cons_tail := rb_cons_tail rb;
     rb_data := rb_data rb |}.

Definition with_cons_tail (v : Z) (rb : ringbuf) : ringbuf :=
  {| rb_nb_words := rb_nb_words rb;
     rb_prod_head := rb_prod_head rb; rb_prod_tail := rb_prod_tail rb;
     rb_cons_head := rb_cons_head rb; rb_cons_tail := v;
     rb_data := rb_data rb |}.

(** Modelled from the spec: steps 1 to 6 of the producer transaction
    (section 4.1.3), up to the payload, which the caller stores: the
    snapshot, the free-space test, the choice between a plain and a wrapping
    reservation, the compare-and-swap of [prod_head] (which a lone caller
    wins), the sentinel and the length word. *)
Definition ringbuf_enqueue_alloc (rb : ringbuf) (nb_words : Z)
    : result ringbuf_tx * ringbuf :=
  let p_h := rb_prod_head rb in
  let c_t := rb_cons_tail rb in
  let free := ringbuf_nb_free rb p_h c_t in
  if free <? nb_words + 1 then (Err NOT_ENOUGH_SPACE, rb)
  else if p_h + nb_words + 1 <=? rb_nb_words rb then
    let p_h' := (p_h + nb_words + 1) mod rb_nb_words rb in
    let rb := with_prod_head p_h' rb in
    let rb := write_words p_h [nb_words] rb in
    (Ok (Tx p_h p_h' (p_h + 1) nb_words false), rb)
  else if nb_words + 1 <=? free - (rb_nb_words rb - p_h) then
    let p_h' := nb_words + 1 in
    let rb := with_prod_head p_h' rb in
    let rb := write_words p_h [UINT32_MAX] rb in
    let rb := write_words 0 [nb_words] rb in
    (Ok (Tx p_h p_h' 1 nb_words true), rb)
  else (Err NOT_ENOUGH_SPACE, rb).

(** Modelled from the spec: step 7 of the producer transaction: advance
    [prod_tail] from the reservation's snapshot to its new head, once
    [prod_tail] has reached the snapshot. *)
Definition ringbuf_enqueue_commit (rb : ringbuf) (tx : ringbuf_tx)
    : result unit * ringbuf :=
  if rb_prod_tail rb =? tx_seen tx then (Ok tt, with_prod_tail (tx_next tx) rb)
  else (Err STALLED, rb).

(** Modelled from the spec: the full producer transaction of section 4.1.3:
    reserve, store the payload words, publish. *)
Definition ringbuf_enqueue (rb : ringbuf) (data : list Z)
    : result unit * ringbuf :=
  match ringbuf_enqueue_alloc rb (Z.of_nat (length data)) with
  | (Ok tx, rb) =>
      ringbuf_enqueue_commit (write_words (tx_start tx) data rb) tx
  | (Err e, rb) => (Err e, rb)
  end.

(** Modelled from the spec: steps 1 to 5 of the consumer transaction
    (section 4.1.4): the snapshot, the emptiness test, the length word or the
    jump over a wrap sentinel, the new head and the compare-and-swap of
    [cons_head]. *)
Definition ringbuf_dequeue_alloc (rb : ringbuf) : result ringbuf_tx * ringbuf :=
  let c_h := rb_cons_head rb in
  let p_t := rb_prod_tail rb in
  if c_h =? p_t then (Err EMPTY, rb)
  else
    let len := read_word rb c_h in
    if len =? UINT32_MAX then
      if 0 =? rb_prod_tail rb then (Err EMPTY, rb)
      else
        let len := read_word rb 0 in
        let c_h' := len + 1 in
        (Ok (Tx c_h c_h' 1 len true), with_cons_head c_h' rb)
    else
      let c_h' := (c_h + len + 1) mod rb_nb_words rb in
      (Ok (Tx c_h c_h' (c_h + 1) len false), with_cons_head c_h' rb).

(** Modelled from the spec: step 7 of the consumer transaction. *)
Definition ringbuf_dequeue_commit (rb : ringbuf) (tx : ringbuf_tx)
    : result unit * ringbuf :=
  if rb_cons_tail rb =? tx_seen tx then (Ok tt, with_cons_tail (tx_next tx) rb)
  else (Err STALLED, rb).

(** Modelled from the spec: the full consumer transaction of section 4.1.4:
    reserve, copy the payload words out, publish.  The destination is taken
    to be large enough, as the section requires of its input. *)
Definition ringbuf_dequeue (rb : ringbuf) : result (list Z) * ringbuf :=
  match ringbuf_dequeue_alloc rb with
  | (Ok tx, rb) =>
      let data := read_words rb (tx_start tx) (tx_len tx) in
      match ringbuf_dequeue_commit rb tx with
      | (Ok _, rb) => (Ok data, rb)
      | (Err e, rb) => (Err e, rb)
      end
  | (Err e, rb) => (Err e, rb)
  end.

(** Enqueue the messages in order; [None] as soon as one is refused. *)
Fixpoint enqueue_all (rb : ringbuf) (msgs : list (list Z)) : option ringbuf :=
  match msgs with
  | [] => Some rb
  | m :: msgs' =>
      match ringbuf_enqueue rb m with
      | (Ok _, rb') => enqueue_all rb' msgs'
      | (Err _, _) => None
      end
  end.

(** Dequeue [k] times; the messages in the order they came out. *)
Fixpoint dequeue_n (k : nat) (rb : ringbuf) : option (list (list Z) * ringbuf) :=
  match k with
  | O => Some ([], rb)
  | S k' =>
      match ringbuf_dequeue rb with
      | (Ok m, rb') =>
          match dequeue_n k' rb' with
          | Some (ms, rb'') => Some (m :: ms, rb'')
          | None => None
          end
      | (Err _, _) => None
      end
  end.

(** Words a message of payload [m] occupies: the length word and the
    payload. *)
Definition footprint (m : list Z) : Z := Z.of_nat (length m) + 1.

Definition total_footprint (msgs : list (list Z)) : Z :=
  foldr (fun m acc => footprint m + acc) 0 msgs.

(** A message as it lies in the data area: the length word, then the
    payload (section 4.1.1). *)
Definition frame (m : list Z) : list Z := Z.of_nat (length m) :: m.

Definition frames (msgs : list (list Z)) : list Z := concat (frame <$> msgs).

(** No reservation is in flight, and the counters are indices. *)
Definition quiescent (rb : ringbuf) : Prop :=
  rb_prod_tail rb = rb_prod_head rb /\
  rb_cons_tail rb = rb_cons_head rb /\
  0 <= rb_prod_head rb < rb_nb_words rb /\
  0 <= rb_cons_head rb < rb_nb_words rb.

(** The buffer holds [msgs], oldest first, in one run of the data area: some
    words already consumed, then the messages from [cons_head] to
    [prod_head], then free words. *)
Definition holds (rb : ringbuf) (msgs : list (list Z)) : Prop :=
  quiescent rb /\
  Z.of_nat (length (rb_data rb)) = rb_nb_words rb /\
  exists pre post : list Z,
    rb_data rb = pre ++ frames msgs ++ post /\
    Z.of_nat (length pre) = rb_cons_head rb /\
    Z.of_nat (length pre) + Z.of_nat (length (frames msgs)) = rb_prod_head rb.

End Protocol.

Export Protocol.

(** ** Concrete worlds, files and buffers used as instances *)

Module Examples.

Definition world_of {A : Type} (o : outcome A) : world :=
  match o with
  | Ret _ w => w
  | Fault w => w
  end.

(** No file, no mapping, nothing logged. *)
Definition empty_world : world := World ∅ [] [].

(** Every system call of [ringbuf_create] succeeds; [write] takes the 24
    bytes of the header of [spec_layout]. *)
Definition env_ok : create_env := CreateEnv true true true 24 true [].

(** [ftruncate] fails (for instance on a full disk). *)
Definition env_no_space : create_env := CreateEnv true true false 24 true [].

(** Every system call of [ringbuf_load] succeeds. *)
Definition load_ok : load_env := LoadEnv true true true true true.

(** A file already at the path. *)
Definition old_world : world := World {["rb" := [x2a; x2a]]} [] [].

(** The world after creating ["rb"] with capacity 8, and its file. *)
Definition world8 : world :=
  world_of (ringbuf_create spec_layout env_ok "rb" 8 empty_world).

Definition file8 : list byte := fresh_file spec_layout [] 8.

(** The same with the wider layout. *)
Definition wide_world8 : world :=
  world_of
    (ringbuf_create wide_layout (CreateEnv true true true 32 true []) "rb" 8
       empty_world).

(** A 28-byte file whose header says [nb_words = 1] and [prod_head = 1]:
    the size is right, the counter is not below [nb_words]. *)
Definition bad_counter_file : list byte :=
  set_prod_head spec_layout 1 (fresh_file spec_layout [] 1).

Definition bad_counter_world : world :=
  World {["rb" := bad_counter_file]} [] [].

(** A 28-byte file whose header says [nb_words = 2^30 + 1], all counters
    zero: the size its header calls for is [2^32 + 28] bytes. *)
Definition overclaiming_file : list byte :=
  initial_rb spec_layout [] (2 ^ 30 + 1) ++ [x00; x00; x00; x00].

Definition overclaiming_world : world :=
  World {["rb" := overclaiming_file]} [] [].

(** Scenario E3: capacity 8 after one message of six words. *)
Definition full8 : ringbuf :=
  (ringbuf_enqueue (fresh 8) [7; 7; 7; 7; 7; 7]).2.

End Examples.

Export Examples.

(** ** Header bytes and system-call traces *)

Module Traces.

(** Whether byte [i] lies in the field at offset [off] of width [w]. *)
Definition in_field (off w i : nat) : bool :=
  Nat.leb off i && Nat.ltb i (off + w).

(** The bytes of the structure that [ringbuf_create] assigns: those of
    [nb_words] and of the four counters. *)
Definition assigned (L : layout) (i : nat) : bool :=
  in_field (off_nb_words L) 4 i || in_field (off_prod_head L) 4 i
  || in_field (off_prod_tail L) 4 i || in_field (off_cons_head L) 4 i
  || in_field (off_cons_tail L) 4 i.

(** How many times a call occurs in a list of events. *)
Definition calls (c : syscall) (evs : list event) : nat :=
  length (filter (fun ev => ev_call ev = c) evs).

(** The system calls of one [ringbuf_load] on a file with bytes [c], in the
    order the code issues them. *)
Definition load_trace (L : layout) (e : load_env) (fname : string)
    (c : list byte) : list event :=
  if negb (ld_open e) then [Ev SysOpen fname false]
  else if negb (ld_lseek e) then
    [Ev SysOpen fname true; Ev SysLseek fname false;
     Ev SysClose fname (ld_close e)]
  else if Z.of_nat (length c) <=? sizeof L then
    [Ev SysOpen fname true; Ev SysLseek fname true;
     Ev SysClose fname (ld_close e)]
  else if negb (ld_mmap e) then
    [Ev SysOpen fname true; Ev SysLseek fname true; Ev SysMmap fname false;
     Ev SysClose fname (ld_close e)]
  else if checks L c (Z.of_nat (length c)) then
    [Ev SysOpen fname true; Ev SysLseek fname true; Ev SysMmap fname true;
     Ev SysClose fname (ld_close e)]
  else
    [Ev SysOpen fname true; Ev SysLseek fname true; Ev SysMmap fname true;
     Ev SysMunmap fname (ld_munmap e)].

(** Whether the [open] call of [ringbuf_load] yields a descriptor. *)
Definition opened (e : load_env) (fname : string) (w : world) : bool :=
  match w_fs w !! fname with
  | Some _ => ld_open e
  | None => false
  end.

End Traces.
Export Traces.

Module Scenarios.

(** The stack holds [0xff] bytes where [rb] is allocated. *)
Definition env_dirty : create_env :=
  CreateEnv true true true 24 true (replicate 24 xff).

(** The world after creating ["rb"] with capacity 8 in that environment,
    and its file. *)
Definition dirty_world8 : world :=
  world_of (ringbuf_create spec_layout env_dirty "rb" 8 empty_world).

Definition dirty_file8 : list byte :=
  fresh_file spec_layout (replicate 24 xff) 8.

(** The old file cannot be removed. *)
Definition env_unlink_fails : create_env :=
  CreateEnv false true true 24 true [].

(** The world after attaching the file of [world8], and the handle. *)
Definition world8_loaded : world :=
  world_of (ringbuf_load spec_layout load_ok "rb" world8).

Definition handle8 : mapping := ("rb", 56).

(** The world after detaching again. *)
Definition world8_unloaded : world :=
  world_of (ringbuf_unload spec_layout true (Some handle8) world8_loaded).



End Scenarios.
Export Scenarios.

(** ** Facts about the object representation *)

Section MachineFacts.

(** Both layouts are well formed. *)
Example layouts_ok : layout_ok spec_layout = true /\ layout_ok wide_layout = true.
Proof. split; reflexivity. Qed.

(** With the wider layout too, create then load gives a handle on the 64
    bytes of the file, and [mmapped_size] then holds 64. *)
Example wide_create_load :
  exists w' : world,
    ringbuf_load wide_layout load_ok "rb" wide_world8
    = Ret (Some ("rb", 64)) w' /\
    (get_mmapped_size wide_layout <$> w_fs w' !! "rb") = Some 64.
Proof. eexists. split; vm_compute; reflexivity. Qed.

Lemma Z_of_byte_range (b : byte) : 0 <= Z_of_byte b < 256.
Proof.
  unfold Z_of_byte. pose proof (Byte.to_N_bounded b). lia.
Qed.

Lemma Z_of_byte_of_Z (z : Z) : Z_of_byte (byte_of_Z z) = z mod 256.
Proof.
  unfold Z_of_byte, byte_of_Z.
  pose proof (Z.mod_pos_bound z 256 ltac:(lia)) as Hr.
  destruct (Byte.of_N (Z.to_N (z mod 256))) as [b|] eqn:E.
  - apply Byte.to_of_N in E. rewrite E. lia.
  - apply Byte.of_N_None_iff in E. lia.
Qed.

Lemma length_le_encode (w : nat) (v : Z) : length (le_encode w v) = w.
Proof. revert v. induction w as [|w IH]; intros v; simpl; [done|]. by rewrite IH. Qed.

Lemma pow256_succ (w : nat) : 2 ^ (8 * Z.of_nat (S w)) = 256 * 2 ^ (8 * Z.of_nat w).
Proof.
  replace (8 * Z.of_nat (S w)) with (8 + 8 * Z.of_nat w) by lia.
  rewrite Z.pow_add_r by lia. reflexivity.
Qed.

Lemma le_decode_encode (w : nat) (v : Z) :
  le_decode (le_encode w v) = wrap (8 * Z.of_nat w) v.
Proof.
  unfold wrap. revert v. induction w as [|w IH]; intros v.
  - simpl. by rewrite Z.mod_1_r.
  - cbn [le_encode le_decode]. rewrite IH, Z_of_byte_of_Z, pow256_succ.
    assert (0 < 2 ^ (8 * Z.of_nat w)) by (apply Z.pow_pos_nonneg; lia).
    rewrite Z.rem_mul_r by lia. lia.
Qed.

Lemma le_decode_range (bs : list byte) :
  0 <= le_decode bs < 2 ^ (8 * Z.of_nat (length bs)).
Proof.
  induction bs as [| b bs IH].
  - simpl. lia.
  - cbn [le_decode length]. rewrite pow256_succ.
    pose proof (Z_of_byte_range b). lia.
Qed.

Lemma length_store_le (off w : nat) (v : Z) (m : list byte) :
  (off + w <= length m)%nat -> length (store_le off w v m) = length m.
Proof.
  intros H. unfold store_le.
  rewrite !length_app, length_take, length_le_encode, length_drop. lia.
Qed.

Lemma load_store_same (off w : nat) (v : Z) (m : list byte) :
  (off + w <= length m)%nat ->
  load_le off w (store_le off w v m) = wrap (8 * Z.of_nat w) v.
Proof.
  intros H. unfold load_le, store_le.
  rewrite drop_app_length' by (rewrite length_take; lia).
  rewrite take_app_length' by (symmetry; apply length_le_encode).
  apply le_decode_encode.
Qed.

Lemma lookup_store_le_outside (off w : nat) (v : Z) (m : list byte) (i : nat) :
  (off + w <= length m)%nat ->
  (i < off \/ off + w <= i)%nat ->
  store_le off w v m !! i = m !! i.
Proof.
  intros H Hi. unfold store_le. destruct Hi as [Hi | Hi].
  - rewrite lookup_app_l by (rewrite length_take; lia).
    by rewrite lookup_take_lt.
  - rewrite lookup_app_r by (rewrite length_take; lia).
    rewrite lookup_app_r by (rewrite length_le_encode, length_take; lia).
    rewrite lookup_drop, length_le_encode, length_take. f_equal. lia.
Qed.

Lemma load_le_ext (off w : nat) (m m' : list byte) :
  (forall i, (off <= i < off + w)%nat -> m !! i = m' !! i) ->
  load_le off w m = load_le off w m'.
Proof.
  intros H. unfold load_le. f_equal. apply list_eq. intros i.
  destruct (decide (i < w)%nat) as [Hi | Hi].
  - rewrite !lookup_take_lt, !lookup_drop by done. apply H. lia.
  - by rewrite !lookup_take_ge by lia.
Qed.

Lemma load_store_other (off w off' w' : nat) (v : Z) (m : list byte) :
  (off + w <= length m)%nat ->
  (off' + w' <= off \/ off + w <= off')%nat ->
  load_le off' w' (store_le off w v m) = load_le off' w' m.
Proof.
  intros H Hd. apply load_le_ext. intros i Hi.
  apply lookup_store_le_outside; [done | lia].
Qed.

End MachineFacts.

(** ** Facts about the header image *)

Lemma or_swap (P Q : Prop) : P \/ Q -> Q \/ P.
Proof. tauto. Qed.

(** Turns [layout_ok L = true] into the bounds and separations it stands
    for. *)
Ltac layout_facts H :=
  let H' := fresh "HL" in
  pose proof H as H';
  unfold layout_ok, fields in H';
  cbn [forallb pairwise_disjoint] in H';
  unfold disjointb in H'; cbn [fst snd] in H';
  repeat rewrite ?andb_true_iff, ?orb_true_iff, ?Nat.leb_le, ?Z.ltb_lt in H';
  destruct_and!.

Ltac clear_disjunctions :=
  repeat match goal with H : _ \/ _ |- _ => clear H end.

(** The bounds only. *)
Ltac layout_bounds H := layout_facts H; clear_disjunctions.

(** Length of an image after a sequence of in-bounds stores. *)
Ltac solve_len_rec :=
  match goal with
  | |- context [length (store_le ?o ?w ?v ?m)] =>
      rewrite (length_store_le o w v m) by solve_len_rec; solve_len_rec
  | _ => rewrite ?length_resize; lia
  end.

Ltac solve_len := clear_disjunctions; solve_len_rec.

Ltac unfold_fields :=
  unfold get_nb_words, get_mmapped_size, get_prod_head, get_prod_tail,
    get_cons_head, get_cons_tail, set_nb_words, set_mmapped_size,
    set_prod_head, set_prod_tail, set_cons_head, set_cons_tail in *.

(** A load from a sequence of in-bounds stores: skip the stores to other
    fields, read the store to the same field. *)
Ltac load_stores :=
  repeat (rewrite load_store_other
            by (first [assumption | apply or_swap; assumption | solve_len]));
  try (rewrite load_store_same by solve_len).

Section ImageFacts.
Variable L : layout.
Hypothesis HL : layout_ok L = true.

Lemma sizeof_bounds : 0 <= sizeof L < 2 ^ 32.
Proof. layout_bounds HL. unfold sizeof. lia. Qed.

Lemma wrap_small (bits z : Z) : 0 <= z < 2 ^ bits -> wrap bits z = z.
Proof. intros H. unfold wrap. by apply Z.mod_small. Qed.

Lemma length_initial_rb (stack : list byte) (n : Z) :
  length (initial_rb L stack n) = sizeof_rb L.
Proof.
  layout_bounds HL. unfold initial_rb. unfold_fields. solve_len.
Qed.

Lemma initial_rb_header (stack : list byte) (n : Z) :
  let rb := initial_rb L stack n in
  get_nb_words L rb = u32 n /\
  get_prod_head L rb = 0 /\ get_prod_tail L rb = 0 /\
  get_cons_head L rb = 0 /\ get_cons_tail L rb = 0.
Proof.
  layout_facts HL. unfold initial_rb. unfold_fields. cbv zeta.
  repeat split; load_stores; reflexivity.
Qed.

(** The uninitialised part of the image is what the stack held. *)
Lemma initial_rb_mmapped_size (stack : list byte) (n : Z) :
  get_mmapped_size L (initial_rb L stack n)
  = get_mmapped_size L (resize (sizeof_rb L) x00 stack).
Proof.
  layout_facts HL. unfold initial_rb. unfold_fields. by load_stores.
Qed.

(** Header fields are read from the first [sizeof_rb] bytes only. *)
Lemma load_le_app_l (off w : nat) (m r : list byte) :
  (off + w <= length m)%nat -> load_le off w (m ++ r) = load_le off w m.
Proof.
  intros H. apply load_le_ext. intros i Hi. apply lookup_app_l. lia.
Qed.

Lemma store_le_app_l (off w : nat) (v : Z) (m r : list byte) :
  (off + w <= length m)%nat ->
  store_le off w v (m ++ r) = store_le off w v m ++ r.
Proof.
  intros H. unfold store_le.
  rewrite take_app_le, drop_app_le by lia. by rewrite <- !app_assoc.
Qed.

End ImageFacts.

(** ** [ringbuf_create]: every run, by the step that decides it *)

Section CreateFacts.
Variable L : layout.
Hypothesis HL : layout_ok L = true.

Lemma file_length_exact (tot : Z) :
  is_u32 tot -> usize (sizeof L + usize (tot * 4)) = sizeof L + tot * 4.
Proof.
  intros Hu. pose proof (sizeof_bounds L HL). unfold is_u32 in Hu.
  unfold usize. rewrite (wrap_small 64 (tot * 4)) by lia.
  apply wrap_small. lia.
Qed.

Lemma partial_file_full (stack : list byte) (tot : Z) :
  0 <= tot ->
  partial_file L stack tot (sizeof_rb L) = fresh_file L stack tot.
Proof.
  intros Ht. unfold partial_file, fresh_file.
  rewrite take_ge by (rewrite length_initial_rb; [lia | done]).
  rewrite drop_replicate. do 2 f_equal. unfold sizeof. lia.
Qed.

Lemma usize_written (wr : Z) (n : nat) :
  n = Nat.min (Z.to_nat wr) (sizeof_rb L) -> usize (Z.of_nat n) = Z.of_nat n.
Proof.
  intros ->. pose proof (sizeof_bounds L HL) as Hs. unfold sizeof in Hs.
  apply wrap_small. lia.
Qed.

Lemma written_file_neg (stack : list byte) (tot wr : Z) :
  wr < 0 ->
  replicate (Z.to_nat (sizeof L + tot * 4)) x00
  = partial_file L stack tot (Z.to_nat wr `min` sizeof_rb L).
Proof.
  intros Hwr. replace (Z.to_nat wr) with 0%nat by lia. reflexivity.
Qed.

Lemma written_file_full (stack : list byte) (tot wr : Z) :
  0 <= tot ->
  sizeof L <= Z.of_nat (Z.to_nat wr `min` sizeof_rb L) ->
  partial_file L stack tot (Z.to_nat wr `min` sizeof_rb L)
  = fresh_file L stack tot.
Proof.
  intros Ht Hn. unfold sizeof in Hn.
  replace (Z.to_nat wr `min` sizeof_rb L)%nat with (sizeof_rb L) by lia.
  by apply partial_file_full.
Qed.

(** The four ways a call of [ringbuf_create] can go: [open] fails; [open]
    succeeds and [ftruncate] fails; both succeed and the header is not fully
    written; all three succeed.  In each the result, the file system and the
    system calls issued are determined. *)
Lemma ringbuf_create_cases (e : create_env) (fname : string) (tot : Z)
    (w : world) :
  is_u32 tot ->
  exists (r : Z) (w' : world) (evs : list event),
    ringbuf_create L e fname tot w = Ret r w' /\
    w_maps w' = w_maps w /\
    w_log w' = w_log w ++ Ev SysUnlink fname (unlinked e fname w) :: evs /\
    let fs1 := fs_after_unlink e fname w in
    ( (created e fname w = false /\ r = -1 /\ w_fs w' = fs1 /\
       evs = [Ev SysOpen fname false])
    \/ (created e fname w = true /\ sized e = false /\ r = -1 /\
        w_fs w' = <[fname := []]> fs1 /\
        evs = [Ev SysOpen fname true; Ev SysFtruncate fname false;
               Ev SysClose fname (ce_close e)])
    \/ (created e fname w = true /\ sized e = true /\ written L e = false /\
        r = -1 /\
        w_fs w'
        = <[fname := partial_file L (ce_stack e) tot (written_bytes L e)]> fs1 /\
        evs = [Ev SysOpen fname true; Ev SysFtruncate fname true;
               Ev SysWrite fname (negb (ce_write e <? 0));
               Ev SysClose fname (ce_close e)])
    \/ (created e fname w = true /\ sized e = true /\ written L e = true /\
        r = 0 /\
        w_fs w' = <[fname := fresh_file L (ce_stack e) tot]> fs1 /\
        evs = [Ev SysOpen fname true; Ev SysFtruncate fname true;
               Ev SysWrite fname true; Ev SysClose fname (ce_close e)]) ).
Proof.
  intros Hu.
  pose proof (file_length_exact tot Hu) as Hlen.
  pose proof (sizeof_bounds L HL) as Hsz.
  pose proof (length_initial_rb L HL (ce_stack e) tot) as Hrb.
  assert (Hnn : forall n : nat, (Z.of_nat n <? 0) = false)
    by (intros; apply Z.ltb_ge; lia).
  destruct e as [un op ft wr cl st].
  unfold ringbuf_create, created, sized, written, written_bytes,
    fs_after_unlink, unlinked.
  cbn [ce_unlink ce_open ce_ftruncate ce_write ce_close ce_stack] in *.
  unfold bind, ret, sys_unlink, sys_open_creat_excl.
  (* unlink, then open *)
  destruct (w_fs w !! fname) as [c0|] eqn:E0; [destruct un|];
    cbn [log set_fs w_fs w_log w_maps];
    rewrite ?lookup_delete_eq, ?E0.
  (* ftruncate *)
  all: try (destruct op; cbv beta iota;
    [ unfold sys_ftruncate; cbn [log set_fs w_fs w_log w_maps];
      rewrite lookup_insert_eq; destruct ft; cbv beta iota | ]).
  (* write *)
  all: try (change (0 <? 0) with false; change (-1 <? 0) with true;
      cbv beta iota;
      unfold sys_write, sys_close; cbn [log set_fs w_fs w_log w_maps];
      rewrite ?lookup_insert_eq, ?Hlen, ?Hrb, ?resize_nil).
  all: try (destruct (wr <? 0) eqn:Ewr; cbv beta iota).
  all: change (-1 <? 0) with true; cbv beta iota.
  all: rewrite ?Hnn, ?(usize_written wr _ eq_refl); cbv beta iota.
  all: try (destruct (Z.of_nat (Z.to_nat wr `min` sizeof_rb L) <? sizeof L)
              eqn:Esh; cbv beta iota).
  (* close, and the result *)
  all: destruct cl; cbv beta iota.
  all: eexists _, _, _; split; [reflexivity|];
    cbn [log set_fs w_fs w_log w_maps]; split; [reflexivity|];
    split; [rewrite <- ?app_assoc; reflexivity|].
  all: rewrite ?insert_insert_eq.
  all: fold (partial_file L st tot (Z.to_nat wr `min` sizeof_rb L)).
  all: try apply Z.ltb_lt in Ewr; try apply Z.ltb_ge in Ewr;
       try apply Z.ltb_lt in Esh; try apply Z.ltb_ge in Esh.
  all: unfold is_u32, sizeof in *.
  all: let closer :=
         (repeat split; try done;
          try (apply Z.leb_gt; lia); try (apply Z.leb_le; lia);
          try (f_equal;
               first [ by apply written_file_neg
                     | apply written_file_full; unfold sizeof; lia ])) in
       first [ left; solve [closer]
             | right; left; solve [closer]
             | right; right; left; solve [closer]
             | right; right; right; solve [closer] ].
Qed.

End CreateFacts.

(** ** [ringbuf_load]: every run, by the step that decides it *)

Section LoadFacts.
Variable L : layout.
Hypothesis HL : layout_ok L = true.

(** Through a live mapping the sanity checks read the bytes of the file and
    change nothing. *)
Lemma sanity_checks_run (m : mapping) (w : world) (c : list byte) (len : Z) :
  deref (Some m) w = Some (m.1, c) ->
  sanity_checks L (Some m) len w = Ret (checks L c len) w.
Proof.
  intros Hd. unfold sanity_checks, andM, bind, mem_load, ret, checks.
  repeat (rewrite Hd; cbv beta iota).
  destruct (check_header_eq _ _); cbn [andb]; cbv beta iota; [|done].
  repeat (rewrite Hd; cbv beta iota).
  destruct (check_header_max _ (get_prod_head L c)); cbn [andb];
    cbv beta iota; [|done].
  repeat (rewrite Hd; cbv beta iota).
  destruct (check_header_max _ (get_prod_tail L c)); cbn [andb];
    cbv beta iota; [|done].
  repeat (rewrite Hd; cbv beta iota).
  destruct (check_header_max _ (get_cons_head L c)); cbn [andb];
    cbv beta iota; [|done].
  by repeat (rewrite Hd; cbv beta iota).
Qed.

Lemma ringbuf_load_missing (e : load_env) (fname : string) (w : world) :
  w_fs w !! fname = None ->
  ringbuf_load L e fname w = Ret None (log SysOpen fname false w).
Proof.
  intros H. unfold ringbuf_load, bind, sys_open_rdwr. by rewrite H.
Qed.

(** On an existing file a call of [ringbuf_load] goes one of three ways: it
    gives up before the sanity checks and returns [NULL]; the checks fail;
    the checks pass. *)
Lemma ringbuf_load_cases (e : load_env) (fname : string) (w : world)
    (c : list byte) :
  w_fs w !! fname = Some c ->
  off_t_size c ->
  let len := Z.of_nat (length c) in
  (exists w', ringbuf_load L e fname w = Ret None w' /\
     w_fs w' = w_fs w /\ w_maps w' = w_maps w /\
     (ld_open e = false \/ ld_lseek e = false \/ len <= sizeof L \/
      ld_mmap e = false))
  \/ (ld_open e = true /\ ld_lseek e = true /\ sizeof L < len /\
      ld_mmap e = true /\ checks L c len = false /\
      exists w', ringbuf_load L e fname w = Fault w' /\
        w_fs w' = w_fs w /\
        w_maps w' = (if ld_munmap e
                     then remove_mapping (fname, len) ((fname, len) :: w_maps w)
                     else (fname, len) :: w_maps w) /\
        w_log w' = w_log w ++
          [Ev SysOpen fname true; Ev SysLseek fname true;
           Ev SysMmap fname true; Ev SysMunmap fname (ld_munmap e)])
  \/ (ld_open e = true /\ ld_lseek e = true /\ sizeof L < len /\
      ld_mmap e = true /\ checks L c len = true /\
      exists w', ringbuf_load L e fname w = Ret (Some (fname, len)) w' /\
        w_fs w' = <[fname := set_mmapped_size L len c]> (w_fs w) /\
        w_maps w' = (fname, len) :: w_maps w /\
        w_log w' = w_log w ++
          [Ev SysOpen fname true; Ev SysLseek fname true;
           Ev SysMmap fname true; Ev SysClose fname (ld_close e)]).
Proof.
  intros Hc Hsz len. unfold off_t_size in Hsz.
  assert (Hlen : usize len = len) by (apply wrap_small; lia).
  assert (Hne : (len =? -1) = false) by (apply Z.eqb_neq; lia).
  destruct e as [op ls mm mu cl].
  unfold ringbuf_load, bind, ret, sys_open_rdwr.
  cbn [ld_open ld_lseek ld_mmap ld_munmap ld_close]. rewrite Hc.
  destruct op; cbv beta iota.
  2: { left. eexists; repeat split; eauto. }
  unfold sys_lseek_end. cbn [log set_fs w_fs w_log w_maps]. rewrite Hc.
  destruct ls; cbv beta iota.
  2: { left. change (-1 =? -1) with true. cbv beta iota.
       unfold sys_close. destruct cl; eexists; repeat split; eauto. }
  fold len. rewrite Hne, Hlen.
  destruct (len <=? sizeof L) eqn:Esz; cbv beta iota.
  { left. apply Z.leb_le in Esz.
    unfold sys_close. destruct cl; eexists; repeat split; eauto. }
  apply Z.leb_gt in Esz.
  unfold sys_mmap. destruct mm; cbv beta iota.
  2: { left. unfold sys_close. destruct cl; eexists; repeat split; eauto 6. }
  assert (Hd : forall w0, w_fs w0 = w_fs w -> (fname, len) ∈ w_maps w0 ->
            deref (Some (fname, len)) w0 = Some (fname, c)).
  { intros w0 Hfs Hin. unfold deref. rewrite decide_True by done.
    cbn [fst]. by rewrite Hfs, Hc. }
  rewrite (sanity_checks_run (fname, len) _ c len)
    by (apply Hd; [done | apply list_elem_of_here]).
  destruct (checks L c len) eqn:Eck; cbn [negb]; cbv beta iota.
  - right; right. repeat split; try done.
    unfold mem_store. rewrite Hd by (done || apply list_elem_of_here).
    unfold sys_close. destruct cl; eexists; repeat split;
      cbn [log set_fs set_maps w_fs w_log w_maps];
      rewrite <- ?app_assoc; reflexivity.
  - right; left. repeat split; try done.
    unfold sys_munmap. destruct mu; cbv beta iota;
      unfold mem_store, deref; eexists; repeat split;
      cbn [log set_fs set_maps w_fs w_log w_maps fst];
      rewrite <- ?app_assoc; reflexivity.
Qed.
End LoadFacts.

(** ** [ringbuf_create]: the claims *)

Section CreateTheorems.
Variable L : layout.
Hypothesis HL : layout_ok L = true.

Lemma fresh_file_header (stack : list byte) (tot : Z) :
  is_u32 tot ->
  let c := fresh_file L stack tot in
  Z.of_nat (length c) = sizeof L + tot * 4 /\
  get_nb_words L c = tot /\
  get_prod_head L c = 0 /\ get_prod_tail L c = 0 /\
  get_cons_head L c = 0 /\ get_cons_tail L c = 0.
Proof.
  intros Hu c. subst c. unfold fresh_file.
  pose proof (length_initial_rb L HL stack tot) as Hlen.
  destruct (initial_rb_header L HL stack tot) as (Hn & Hph & Hpt & Hch & Hct).
  layout_bounds HL.
  split.
  { rewrite length_app, length_replicate, Hlen. unfold sizeof, is_u32 in *. lia. }
  unfold_fields.
  rewrite !load_le_app_l by lia.
  rewrite Hn, Hph, Hpt, Hch, Hct. 
  repeat split. apply wrap_small. exact Hu.
Qed.

(** Claim C3.  Whenever [ringbuf_create] succeeds (returns 0) for a path and
    a capacity [tot_words], the file at the path has size exactly
    [sizeof(header) + tot_words * 4] bytes, its header records [nb_words]
    equal to the requested capacity, and the four counters [prod_head],
    [prod_tail], [cons_head], [cons_tail] are zero. *)
Theorem ringbuf_create_success_layout (e : create_env) (fname : string)
    (tot_words : Z) (w w' : world) :
  is_u32 tot_words ->
  ringbuf_create L e fname tot_words w = Ret 0 w' ->
  exists c : list byte,
    w_fs w' !! fname = Some c /\
    Z.of_nat (length c) = sizeof L + tot_words * 4 /\
    get_nb_words L c = tot_words /\
    get_prod_head L c = 0 /\ get_prod_tail L c = 0 /\
    get_cons_head L c = 0 /\ get_cons_tail L c = 0.
Proof.
  intros Hu Hrun.
  destruct (ringbuf_create_cases L HL e fname tot_words w Hu)
    as (r & w1 & evs & Heq & _ & _ & Hcases).
  rewrite Hrun in Heq. injection Heq as <- <-.
  destruct Hcases as [(_ & Hr & _) | [(_ & _ & Hr & _) | [(_ & _ & _ & Hr & _)
    | (_ & _ & _ & _ & Hfs & _)]]]; try discriminate Hr.
  exists (fresh_file L (ce_stack e) tot_words). split.
  - rewrite Hfs. apply lookup_insert_eq.
  - by apply fresh_file_header.
Qed.

Lemma fs_after_unlink_other (e : create_env) (fname p : string) (w : world) :
  p <> fname -> fs_after_unlink e fname w !! p = w_fs w !! p.
Proof.
  intros Hp. unfold fs_after_unlink.
  destruct (unlinked e fname w); [by apply lookup_delete_ne | done].
Qed.

Lemma created_path_free (e : create_env) (fname : string) (w : world) :
  created e fname w = true ->
  fs_after_unlink e fname w !! fname = None /\
  (is_Some (w_fs w !! fname) -> unlinked e fname w = true).
Proof.
  unfold created, fs_after_unlink, unlinked.
  destruct (w_fs w !! fname) as [c|] eqn:E; [destruct (ce_unlink e)|].
  - rewrite lookup_delete_eq. done.
  - rewrite E. done.
  - rewrite E. intros _. split; [done|]. by intros [? ?].
Qed.

(** The data area of the file laid out by [ringbuf_create] is zeroed. *)
Lemma fresh_file_data_zero (stack : list byte) (tot : Z) (i : nat) :
  (sizeof_rb L <= i < length (fresh_file L stack tot))%nat ->
  fresh_file L stack tot !! i = Some x00.
Proof.
  intros Hi. unfold fresh_file in *.
  pose proof (length_initial_rb L HL stack tot) as Hlen.
  rewrite length_app, length_replicate, Hlen in Hi.
  rewrite lookup_app_r by lia. apply lookup_replicate_2. lia.
Qed.

(** Claim C8.  [ringbuf_create] always returns, with 0 or -1.  The result is
    0 exactly when the new file could be created, sized and its header
    fully written; every failure of one of these steps gives -1.  On success
    the file at the path is the freshly laid-out file, whatever was there
    before: it has [sizeof(header) + tot_words * 4] bytes, its header reads
    [nb_words = tot_words] and zero for the four counters, and its data
    area is zeroed; no other path is touched.  No system call is issued
    twice: nothing is retried. *)
Theorem ringbuf_create_result (e : create_env) (fname : string)
    (tot_words : Z) (w : world) :
  is_u32 tot_words ->
  exists (r : Z) (w' : world) (evs : list event),
    ringbuf_create L e fname tot_words w = Ret r w' /\
    new_events w w' evs /\
    (r = 0 \/ r = -1) /\
    (r = 0 <->
     created e fname w = true /\ sized e = true /\ written L e = true) /\
    (r = 0 ->
     w_fs w' !! fname = Some (fresh_file L (ce_stack e) tot_words)) /\
    (r = 0 ->
     exists c : list byte,
       w_fs w' !! fname = Some c /\
       Z.of_nat (length c) = sizeof L + tot_words * 4 /\
       get_nb_words L c = tot_words /\
       get_prod_head L c = 0 /\ get_prod_tail L c = 0 /\
       get_cons_head L c = 0 /\ get_cons_tail L c = 0 /\
       forall i : nat,
         (sizeof_rb L <= i < length c)%nat -> c !! i = Some x00) /\
    (forall p : string, p <> fname -> w_fs w' !! p = w_fs w !! p) /\
    NoDup (ev_call <$> evs).
Proof.
  intros Hu.
  destruct (ringbuf_create_cases L HL e fname tot_words w Hu)
    as (r & w' & evs & Heq & _ & Hlog & Hcases).
  exists r, w', (Ev SysUnlink fname (unlinked e fname w) :: evs).
  split; [exact Heq|]. split; [exact Hlog|].
  cbv zeta in Hcases.
  destruct Hcases as [(Hc & -> & Hfs & ->) | [(Hc & Hs & -> & Hfs & ->)
    | [(Hc & Hs & Hw & -> & Hfs & ->) | (Hc & Hs & Hw & -> & Hfs & ->)]]].
  all: split; [lia|].
  all: split; [split; [intros; lia || done | intros (? & ? & ?); congruence]|].
  all: split; [try (intros; lia); try (intros _; rewrite Hfs; apply lookup_insert_eq)|].
  all: split;
    [try (intros; lia);
     try (intros _; exists (fresh_file L (ce_stack e) tot_words);
          split; [rewrite Hfs; apply lookup_insert_eq|];
          destruct (fresh_file_header (ce_stack e) tot_words Hu)
            as (Hlen & Hn & Hph & Hpt & Hch & Hct);
          repeat (split; [assumption|]);
          intros i Hi; by apply fresh_file_data_zero)|].
  all: split; [intros p Hp; rewrite Hfs, ?lookup_insert_ne by done;
               by apply fs_after_unlink_other|].
  all: apply (bool_decide_unpack _); vm_compute; exact I.
Qed.

(** Claim C10.  [ringbuf_create] unlinks the path first and opens the new
    file next, so it is not atomic.  When the new file was opened, a file
    that existed at the path has been unlinked; if the call then fails, what
    remains at the path is an incompletely initialised file: empty when the
    sizing failed, the zeroed file holding only the first
    [written_bytes < sizeof(header)] bytes of the header when the header
    write failed or was short.  When the open fails, the call returns -1
    after these two system calls and leaves the file system as the [unlink]
    left it, with no new file. *)
Theorem ringbuf_create_not_atomic (e : create_env) (fname : string)
    (tot_words : Z) (w : world) :
  is_u32 tot_words ->
  exists (r : Z) (w' : world) (evs : list event),
    ringbuf_create L e fname tot_words w = Ret r w' /\
    new_events w w'
      (Ev SysUnlink fname (unlinked e fname w)
       :: Ev SysOpen fname (created e fname w) :: evs) /\
    (created e fname w = true ->
       (is_Some (w_fs w !! fname) -> unlinked e fname w = true) /\
       (r = -1 ->
        sized e = false /\ w_fs w' !! fname = Some [] \/
        sized e = true /\ (written_bytes L e < sizeof_rb L)%nat /\
        w_fs w' !! fname
        = Some (partial_file L (ce_stack e) tot_words (written_bytes L e)))) /\
    (created e fname w = false ->
       r = -1 /\ evs = [] /\ w_fs w' = fs_after_unlink e fname w).
Proof.
  intros Hu.
  destruct (ringbuf_create_cases L HL e fname tot_words w Hu)
    as (r & w' & evs & Heq & _ & Hlog & Hcases).
  cbv zeta in Hcases.
  destruct Hcases as [(Hc & -> & Hfs & ->) | [(Hc & Hs & -> & Hfs & ->)
    | [(Hc & Hs & Hw & -> & Hfs & ->) | (Hc & Hs & Hw & -> & Hfs & ->)]]].
  all: eexists _, w', _; split; [exact Heq|].
  all: split; [unfold new_events; rewrite Hlog, Hc; reflexivity|].
  all: split; [|intros Hc'; first [congruence | done]].
  all: intros Hc'; try congruence.
  all: split; [by apply created_path_free|].
  all: intros Hr; try lia.
  - left. split; [done|]. rewrite Hfs. apply lookup_insert_eq.
  - right. split; [done|]. split; [|rewrite Hfs; apply lookup_insert_eq].
    unfold written in Hw. apply Z.leb_gt in Hw.
    layout_bounds HL. unfold written_bytes, sizeof in *. lia.
Qed.

End CreateTheorems.


(** Instance of claim C3: capacity 8 in an empty world. *)
Lemma ringbuf_create_success_layout_witness :
  layout_ok spec_layout = true /\
  is_u32 8 /\
  ringbuf_create spec_layout env_ok "rb" 8 empty_world = Ret 0 world8 /\
  exists c : list byte,
    w_fs world8 !! "rb" = Some c /\
    Z.of_nat (length c) = sizeof spec_layout + 8 * 4 /\
    get_nb_words spec_layout c = 8 /\
    get_prod_head spec_layout c = 0 /\ get_prod_tail spec_layout c = 0 /\
    get_cons_head spec_layout c = 0 /\ get_cons_tail spec_layout c = 0.
Proof.
  assert (Hu : is_u32 8) by (unfold is_u32; lia).
  assert (Hrun : ringbuf_create spec_layout env_ok "rb" 8 empty_world
                 = Ret 0 world8) by (vm_compute; reflexivity).
  split; [reflexivity|]. split; [exact Hu|]. split; [exact Hrun|].
  exact (ringbuf_create_success_layout spec_layout eq_refl env_ok "rb" 8
           empty_world world8 Hu Hrun).
Defined.

(** Instance of claim C8: a file exists at the path and every step
    succeeds. *)
Lemma ringbuf_create_result_witness :
  layout_ok spec_layout = true /\
  is_u32 8 /\
  exists (r : Z) (w' : world) (evs : list event),
    ringbuf_create spec_layout env_ok "rb" 8 old_world = Ret r w' /\
    new_events old_world w' evs /\
    (r = 0 \/ r = -1) /\
    (r = 0 <->
     created env_ok "rb" old_world = true /\ sized env_ok = true /\
     written spec_layout env_ok = true) /\
    (r = 0 ->
     w_fs w' !! "rb" = Some (fresh_file spec_layout (ce_stack env_ok) 8)) /\
    (r = 0 ->
     exists c : list byte,
       w_fs w' !! "rb" = Some c /\
       Z.of_nat (length c) = sizeof spec_layout + 8 * 4 /\
       get_nb_words spec_layout c = 8 /\
       get_prod_head spec_layout c = 0 /\ get_prod_tail spec_layout c = 0 /\
       get_cons_head spec_layout c = 0 /\ get_cons_tail spec_layout c = 0 /\
       forall i : nat,
         (sizeof_rb spec_layout <= i < length c)%nat -> c !! i = Some x00) /\
    (forall p : string, p <> "rb" -> w_fs w' !! p = w_fs old_world !! p) /\
    NoDup (ev_call <$> evs).
Proof.
  assert (Hu : is_u32 8) by (unfold is_u32; lia).
  split; [reflexivity|]. split; [exact Hu|].
  exact (ringbuf_create_result spec_layout eq_refl env_ok "rb" 8 old_world Hu).
Defined.

(** Instance of claim C10: a file exists at the path and [ftruncate]
    fails. *)
Lemma ringbuf_create_not_atomic_witness :
  layout_ok spec_layout = true /\
  is_u32 8 /\
  exists (r : Z) (w' : world) (evs : list event),
    ringbuf_create spec_layout env_no_space "rb" 8 old_world = Ret r w' /\
    new_events old_world w'
      (Ev SysUnlink "rb" (unlinked env_no_space "rb" old_world)
       :: Ev SysOpen "rb" (created env_no_space "rb" old_world) :: evs) /\
    (created env_no_space "rb" old_world = true ->
       (is_Some (w_fs old_world !! "rb") ->
        unlinked env_no_space "rb" old_world = true) /\
       (r = -1 ->
        sized env_no_space = false /\ w_fs w' !! "rb" = Some [] \/
        sized env_no_space = true /\
        (written_bytes spec_layout env_no_space < sizeof_rb spec_layout)%nat /\
        w_fs w' !! "rb"
        = Some (partial_file spec_layout (ce_stack env_no_space) 8
                  (written_bytes spec_layout env_no_space)))) /\
    (created env_no_space "rb" old_world = false ->
       r = -1 /\ evs = [] /\
       w_fs w' = fs_after_unlink env_no_space "rb" old_world).
Proof.
  assert (Hu : is_u32 8) by (unfold is_u32; lia).
  split; [reflexivity|]. split; [exact Hu|].
  exact (ringbuf_create_not_atomic spec_layout eq_refl env_no_space "rb" 8
           old_world Hu).
Defined.

(** The run of the preceding instance: the old file is gone, an empty file
    is left, and the call returns -1. *)
Example ringbuf_create_not_atomic_run :
  exists w' : world,
    ringbuf_create spec_layout env_no_space "rb" 8 old_world = Ret (-1) w' /\
    w_fs old_world !! "rb" = Some [x2a; x2a] /\
    w_fs w' !! "rb" = Some [].
Proof. eexists. split; [vm_compute; reflexivity|]. by vm_compute. Qed.

(** ** [ringbuf_load]: the claims *)

Section LoadTheorems.
Variable L : layout.
Hypothesis HL : layout_ok L = true.

(** What decides whether [ringbuf_load] attaches an existing file. *)
Lemma ringbuf_load_attached_iff (e : load_env) (fname : string) (w : world)
    (c : list byte) :
  w_fs w !! fname = Some c ->
  off_t_size c ->
  attached (ringbuf_load L e fname w) <->
  ld_open e = true /\ ld_lseek e = true /\ ld_mmap e = true /\
  sizeof L < Z.of_nat (length c) /\
  checks L c (Z.of_nat (length c)) = true.
Proof.
  intros Hc Hsz.
  destruct (ringbuf_load_cases L e fname w c Hc Hsz)
    as [(w' & Heq & _ & _ & Hwhy)
       | [(Ho & Hl & Hlen & Hm & Hck & w' & Heq & _)
         | (Ho & Hl & Hlen & Hm & Hck & w' & Heq & _ & Hmaps & _)]];
    cbv zeta in *; unfold attached; rewrite Heq.
  - split.
    + intros (m & w1 & Hr & _). discriminate Hr.
    + intros (Ho & Hl & Hm & Hlen & _).
      destruct Hwhy as [? | [? | [? | ?]]]; congruence || lia.
  - split.
    + intros (m & w1 & Hr & _). discriminate Hr.
    + intros (_ & _ & _ & _ & ?). congruence.
  - split; [done|]. intros _. eexists _, _. split; [reflexivity|].
    rewrite Hmaps. apply list_elem_of_here.
Qed.


Lemma load_le_range (off w : nat) (m : list byte) :
  0 <= load_le off w m < 2 ^ (8 * Z.of_nat w).
Proof.
  unfold load_le. pose proof (le_decode_range (take w (drop off m))) as H.
  assert (length (take w (drop off m)) <= w)%nat by (rewrite length_take; lia).
  assert (2 ^ (8 * Z.of_nat (length (take w (drop off m))))
          <= 2 ^ (8 * Z.of_nat w)) by (apply Z.pow_le_mono_r; lia).
  lia.
Qed.

(** What the sanity checks compare: the file size and the size computed
    from [nb_words], both converted to [unsigned]; each counter against
    [nb_words]. *)
Lemma checks_true_iff (c : list byte) (len : Z) :
  checks L c len = true <->
  u32 (sizeof L + get_nb_words L c * 4) = u32 len /\
  get_prod_head L c < get_nb_words L c /\
  get_prod_tail L c < get_nb_words L c /\
  get_cons_head L c < get_nb_words L c /\
  get_cons_tail L c < get_nb_words L c.
Proof.
  pose proof (sizeof_bounds L HL) as Hs.
  pose proof (load_le_range (off_nb_words L) 4 c) as Hn.
  pose proof (load_le_range (off_prod_head L) 4 c) as Hph.
  pose proof (load_le_range (off_prod_tail L) 4 c) as Hpt.
  pose proof (load_le_range (off_cons_head L) 4 c) as Hch.
  pose proof (load_le_range (off_cons_tail L) 4 c) as Hct.
  change (2 ^ (8 * Z.of_nat 4)) with (2 ^ 32) in *.
  unfold checks, check_header_eq, check_header_max, usize.
  unfold get_nb_words, get_prod_head, get_prod_tail, get_cons_head,
    get_cons_tail.
  set (n := load_le (off_nb_words L) 4 c) in *.
  rewrite (wrap_small 64 (n * 4)) by lia.
  rewrite (wrap_small 64 (n * 4 + sizeof L)) by lia.
  unfold u32. rewrite !(wrap_small 32 (load_le _ _ _)) by lia.
  rewrite !(wrap_small 32 n) by lia.
  rewrite !andb_true_iff, Z.eqb_eq, !Z.ltb_lt.
  replace (n * 4 + sizeof L) with (sizeof L + n * 4) by lia.
  tauto.
Qed.

(** A file that is valid in the sense of the specification passes the
    checks of the code. *)
Lemma valid_file_checks (c : list byte) :
  valid_file L c -> checks L c (Z.of_nat (length c)) = true.
Proof.
  intros (Hsz & Hrest). apply checks_true_iff. split; [by rewrite Hsz | done].
Qed.

(** The checks do not depend on the bytes of [mmapped_size]. *)
Lemma checks_agree (c c2 : list byte) (len : Z) :
  (forall i : nat,
     (i < off_mmapped_size L \/
      off_mmapped_size L + sz_mmapped_size L <= i)%nat ->
     c2 !! i = c !! i) ->
  checks L c2 len = checks L c len.
Proof.
  intros Hout.
  assert (Hf : forall off : nat,
            (off + 4 <= off_mmapped_size L \/
             off_mmapped_size L + sz_mmapped_size L <= off)%nat ->
            load_le off 4 c2 = load_le off 4 c).
  { intros off Hoff. apply load_le_ext. intros i Hi. apply Hout. lia. }
  layout_facts HL.
  unfold checks, get_nb_words, get_prod_head, get_prod_tail, get_cons_head,
    get_cons_tail.
  rewrite !Hf by (first [assumption | apply or_swap; assumption]).
  reflexivity.
Qed.


(** The store of [ringbuf_load] into a mapped file longer than the header
    touches the bytes of [mmapped_size] only. *)
Lemma set_mmapped_size_frame (c : list byte) (v : Z) :
  sizeof L <= Z.of_nat (length c) ->
  let c' := set_mmapped_size L v c in
  length c' = length c /\
  (forall i : nat,
     (i < off_mmapped_size L \/
      off_mmapped_size L + sz_mmapped_size L <= i)%nat ->
     c' !! i = c !! i) /\
  get_mmapped_size L c' = wrap (8 * Z.of_nat (sz_mmapped_size L)) v /\
  (0 <= v < 2 ^ (8 * Z.of_nat (sz_mmapped_size L)) ->
   get_mmapped_size L c' = v) /\
  get_nb_words L c' = get_nb_words L c /\
  get_prod_head L c' = get_prod_head L c /\
  get_prod_tail L c' = get_prod_tail L c /\
  get_cons_head L c' = get_cons_head L c /\
  get_cons_tail L c' = get_cons_tail L c.
Proof.
  intros Hlen c'. subst c'. unfold sizeof in Hlen.
  assert (Hin : (off_mmapped_size L + sz_mmapped_size L <= length c)%nat)
    by (layout_bounds HL; lia).
  layout_facts HL. unfold_fields.
  split; [by apply length_store_le|].
  split; [intros i Hi; by apply lookup_store_le_outside|].
  split; [by apply load_store_same|].
  split; [intros Hv; rewrite load_store_same by done; by apply wrap_small|].
  repeat split; apply load_store_other;
    first [assumption | apply or_swap; assumption].
Qed.


(** Claim C1: what the code does where the claim expects [NULL].  For every
    file that is opened, measured and mapped and whose header fails the
    sanity checks (the file size does not match, as the code compares it,
    or one of the four counters is not strictly less than [nb_words]),
    [ringbuf_load] unmaps the region, sets [rb] to [NULL] and then executes
    [rb->mmapped_size = file_length] through that null pointer: the run
    faults right after [munmap] and never reaches the [return]. *)
Theorem ringbuf_load_invalid_header_faults (e : load_env) (fname : string)
    (w : world) (c : list byte) :
  w_fs w !! fname = Some c ->
  off_t_size c ->
  ld_open e = true -> ld_lseek e = true -> ld_mmap e = true ->
  sizeof L < Z.of_nat (length c) ->
  (u32 (sizeof L + get_nb_words L c * 4) <> u32 (Z.of_nat (length c)) \/
   get_nb_words L c <= get_prod_head L c \/
   get_nb_words L c <= get_prod_tail L c \/
   get_nb_words L c <= get_cons_head L c \/
   get_nb_words L c <= get_cons_tail L c) ->
  exists w' : world,
    ringbuf_load L e fname w = Fault w' /\
    new_events w w'
      [Ev SysOpen fname true; Ev SysLseek fname true; Ev SysMmap fname true;
       Ev SysMunmap fname (ld_munmap e)] /\
    (ld_munmap e = true -> (fname, Z.of_nat (length c)) ∉ w_maps w') /\
    w_fs w' = w_fs w.
Proof.
  intros Hc Hsz Ho Hl Hm Hlen Hbad.
  destruct (ringbuf_load_cases L e fname w c Hc Hsz)
    as [(w' & _ & _ & _ & Hwhy)
       | [(_ & _ & _ & _ & _ & w' & Heq & Hfs & Hmaps & Hlog)
         | (_ & _ & _ & _ & Hck & _)]]; cbv zeta in *.
  - destruct Hwhy as [? | [? | [? | ?]]]; congruence || lia.
  - exists w'. split; [exact Heq|]. split; [exact Hlog|]. split; [|exact Hfs].
    intros Hmu. rewrite Hmaps, Hmu. unfold remove_mapping.
    rewrite list_elem_of_filter. tauto.
  - apply checks_true_iff in Hck. destruct Hck as (Hsize & Hcounters).
    destruct Hbad as [Hne | Hge]; [by destruct Hne | lia].
Qed.

Lemma ringbuf_load_too_small (e : load_env) (fname : string) (w : world)
    (c : list byte) :
  w_fs w !! fname = Some c ->
  Z.of_nat (length c) <= sizeof L ->
  exists w' : world,
    ringbuf_load L e fname w = Ret None w' /\
    w_fs w' = w_fs w /\ w_maps w' = w_maps w.
Proof.
  intros Hc Hlen. pose proof (sizeof_bounds L HL) as Hs.
  assert (Hsz : off_t_size c) by (unfold off_t_size; lia).
  destruct (ringbuf_load_cases L e fname w c Hc Hsz)
    as [(w' & Heq & Hfs & Hmaps & _)
       | [(_ & _ & ? & _) | (_ & _ & ? & _)]]; cbv zeta in *; try lia.
  by exists w'.
Qed.

(** Claim C9.  With capacity 0, a [ringbuf_create] whose steps succeed
    returns 0 and leaves a file of exactly the header size; every later
    [ringbuf_load] of that path returns [NULL], whatever the environment
    answers.  More generally [ringbuf_load] returns [NULL] on every file
    whose size is not strictly greater than the header size. *)
Theorem ringbuf_create_zero_never_attaches :
  (forall (e : create_env) (fname : string) (w : world),
     created e fname w = true -> sized e = true -> written L e = true ->
     exists w' : world,
       ringbuf_create L e fname 0 w = Ret 0 w' /\
       (exists c : list byte,
          w_fs w' !! fname = Some c /\ Z.of_nat (length c) = sizeof L) /\
       (forall e' : load_env,
          exists w'' : world,
            ringbuf_load L e' fname w' = Ret None w'' /\
            ~ attached (ringbuf_load L e' fname w'))) /\
  (forall (e' : load_env) (fname : string) (w : world) (c : list byte),
     w_fs w !! fname = Some c ->
     Z.of_nat (length c) <= sizeof L ->
     exists w' : world, ringbuf_load L e' fname w = Ret None w').
Proof.
  split.
  - intros e fname w Hcr Hsi Hwr.
    assert (Hu : is_u32 0) by (unfold is_u32; lia).
    destruct (ringbuf_create_cases L HL e fname 0 w Hu)
      as (r & w' & evs & Heq & _ & _ & Hcases). cbv zeta in Hcases.
    destruct Hcases as [(Hc & _) | [(_ & Hs & _)
      | [(_ & _ & Hw & _) | (_ & _ & _ & -> & Hfs & _)]]]; try congruence.
    exists w'. split; [exact Heq|].
    assert (Hf : w_fs w' !! fname = Some (fresh_file L (ce_stack e) 0))
      by (rewrite Hfs; apply lookup_insert_eq).
    assert (Hlen : Z.of_nat (length (fresh_file L (ce_stack e) 0)) = sizeof L).
    { unfold fresh_file. rewrite length_app, length_replicate.
      rewrite (length_initial_rb L HL). unfold sizeof. lia. }
    split; [eauto|].
    intros e'.
    destruct (ringbuf_load_too_small e' fname w' _ Hf) as (w'' & Hl & _);
      [lia|].
    exists w''. split; [exact Hl|].
    rewrite Hl. intros (m & w1 & Hr & _). discriminate Hr.
  - intros e' fname w c Hc Hlen.
    destruct (ringbuf_load_too_small e' fname w c Hc Hlen) as (w' & Hl & _).
    by exists w'.
Qed.

(** What [ringbuf_load] accepts, exactly: it returns a usable handle if and
    only if [open], [lseek] and [mmap] succeed, the file is longer than the
    header, the file size and [sizeof(header) + nb_words * 4] agree once
    both are converted to [unsigned], and each counter is below
    [nb_words]. *)
Theorem ringbuf_load_attaches_exactly (e : load_env) (fname : string)
    (w : world) (c : list byte) :
  w_fs w !! fname = Some c ->
  off_t_size c ->
  attached (ringbuf_load L e fname w) <->
  ld_open e = true /\ ld_lseek e = true /\ ld_mmap e = true /\
  sizeof L < Z.of_nat (length c) /\
  u32 (sizeof L + get_nb_words L c * 4) = u32 (Z.of_nat (length c)) /\
  get_prod_head L c < get_nb_words L c /\
  get_prod_tail L c < get_nb_words L c /\
  get_cons_head L c < get_nb_words L c /\
  get_cons_tail L c < get_nb_words L c.
Proof.
  intros Hc Hsz.
  rewrite (ringbuf_load_attached_iff e fname w c Hc Hsz), checks_true_iff.
  reflexivity.
Qed.

(** A file created with a capacity of at least one word attaches: after a
    successful [ringbuf_create], [ringbuf_load] of the same path returns a
    usable handle whenever its own system calls succeed. *)
Theorem ringbuf_create_then_load_attaches (ce : create_env) (e : load_env)
    (fname : string) (tot_words : Z) (w w' : world) :
  is_u32 tot_words ->
  1 <= tot_words ->
  ringbuf_create L ce fname tot_words w = Ret 0 w' ->
  ld_open e = true -> ld_lseek e = true -> ld_mmap e = true ->
  attached (ringbuf_load L e fname w').
Proof.
  intros Hu Hpos Hrun Ho Hl Hm.
  destruct (ringbuf_create_cases L HL ce fname tot_words w Hu)
    as (r & w1 & evs & Heq & _ & _ & Hcases). cbv zeta in Hcases.
  rewrite Hrun in Heq. injection Heq as <- <-.
  destruct Hcases as [(_ & Hr & _) | [(_ & _ & Hr & _) | [(_ & _ & _ & Hr & _)
    | (_ & _ & _ & _ & Hfs & _)]]]; try discriminate Hr.
  set (c := fresh_file L (ce_stack ce) tot_words) in *.
  assert (Hc : w_fs w' !! fname = Some c)
    by (rewrite Hfs; apply lookup_insert_eq).
  destruct (fresh_file_header L HL (ce_stack ce) tot_words Hu)
    as (Hlen & Hn & Hph & Hpt & Hch & Hct). fold c in Hlen, Hn, Hph, Hpt, Hch, Hct.
  pose proof (sizeof_bounds L HL) as Hs. unfold is_u32 in Hu.
  assert (Hsz : off_t_size c) by (unfold off_t_size; lia).
  apply (ringbuf_load_attached_iff e fname w' c Hc Hsz).
  repeat split; try done; [lia|].
  apply valid_file_checks. unfold valid_file. rewrite Hn, Hph, Hpt, Hch, Hct.
  repeat split; lia.
Qed.

End LoadTheorems.




(** Instance of claim C9: capacity 0 in an empty world. *)
Lemma ringbuf_create_zero_never_attaches_witness :
  layout_ok spec_layout = true /\
  created env_ok "rb" empty_world = true /\
  sized env_ok = true /\
  written spec_layout env_ok = true /\
  exists w' : world,
    ringbuf_create spec_layout env_ok "rb" 0 empty_world = Ret 0 w' /\
    (exists c : list byte,
       w_fs w' !! "rb" = Some c /\ Z.of_nat (length c) = sizeof spec_layout) /\
    (forall e' : load_env,
       exists w'' : world,
         ringbuf_load spec_layout e' "rb" w' = Ret None w'' /\
         ~ attached (ringbuf_load spec_layout e' "rb" w')).
Proof.
  assert (Hcr : created env_ok "rb" empty_world = true)
    by (vm_compute; reflexivity).
  split; [reflexivity|]. split; [exact Hcr|].
  split; [reflexivity|]. split; [reflexivity|].
  exact (proj1 (ringbuf_create_zero_never_attaches spec_layout eq_refl)
           env_ok "rb" empty_world Hcr eq_refl eq_refl).
Defined.

(** Instance of claim C1: the header says [nb_words = 1] and
    [prod_head = 1]. *)
Lemma ringbuf_load_invalid_header_faults_witness :
  layout_ok spec_layout = true /\
  w_fs bad_counter_world !! "rb" = Some bad_counter_file /\
  off_t_size bad_counter_file /\
  sizeof spec_layout < Z.of_nat (length bad_counter_file) /\
  get_nb_words spec_layout bad_counter_file = 1 /\
  get_prod_head spec_layout bad_counter_file = 1 /\
  exists w' : world,
    ringbuf_load spec_layout load_ok "rb" bad_counter_world = Fault w' /\
    new_events bad_counter_world w'
      [Ev SysOpen "rb" true; Ev SysLseek "rb" true; Ev SysMmap "rb" true;
       Ev SysMunmap "rb" (ld_munmap load_ok)] /\
    (ld_munmap load_ok = true ->
     ("rb", Z.of_nat (length bad_counter_file)) ∉ w_maps w') /\
    w_fs w' = w_fs bad_counter_world.
Proof.
  assert (Hc : w_fs bad_counter_world !! "rb" = Some bad_counter_file)
    by (vm_compute; reflexivity).
  assert (Hsz : off_t_size bad_counter_file)
    by (unfold off_t_size; vm_compute; reflexivity).
  assert (Hlen : sizeof spec_layout < Z.of_nat (length bad_counter_file))
    by (vm_compute; reflexivity).
  assert (Hn : get_nb_words spec_layout bad_counter_file = 1)
    by (vm_compute; reflexivity).
  assert (Hph : get_prod_head spec_layout bad_counter_file = 1)
    by (vm_compute; reflexivity).
  split; [reflexivity|].
  split; [exact Hc|]. split; [exact Hsz|]. split; [exact Hlen|].
  split; [exact Hn|]. split; [exact Hph|].
  apply (ringbuf_load_invalid_header_faults spec_layout eq_refl load_ok "rb"
           bad_counter_world bad_counter_file Hc Hsz eq_refl eq_refl eq_refl
           Hlen).
  right; left. rewrite Hn, Hph. lia.
Defined.

(** Claim C2: what the code does where the claim expects a rejection.  The
    file is 28 bytes long and its header says [nb_words = 2^30 + 1], so that
    the size the header calls for is [2^32 + 28], not the file's.
    [check_header_eq] compares the two sizes as [unsigned]: they agree
    modulo [2^32], and [ringbuf_load] returns a handle on a file that is not
    valid. *)
Theorem ringbuf_load_accepts_truncated_size :
  Z.of_nat (length overclaiming_file) = 28 /\
  get_nb_words spec_layout overclaiming_file = 2 ^ 30 + 1 /\
  sizeof spec_layout + get_nb_words spec_layout overclaiming_file * 4
  = 2 ^ 32 + 28 /\
  ~ valid_file spec_layout overclaiming_file /\
  ringbuf_load spec_layout load_ok "rb" overclaiming_world
  = Ret (Some ("rb", 28))
      (world_of (ringbuf_load spec_layout load_ok "rb" overclaiming_world)) /\
  attached (ringbuf_load spec_layout load_ok "rb" overclaiming_world).
Proof.
  assert (Hrun : ringbuf_load spec_layout load_ok "rb" overclaiming_world
                 = Ret (Some ("rb", 28))
                     (world_of (ringbuf_load spec_layout load_ok "rb"
                                  overclaiming_world)))
    by (vm_compute; reflexivity).
  split; [vm_compute; reflexivity|]. split; [vm_compute; reflexivity|].
  split; [vm_compute; reflexivity|].
  split.
  - intros (Hsize & _). vm_compute in Hsize. discriminate Hsize.
  - split; [exact Hrun|].
    eexists _, _. split; [exact Hrun|]. vm_compute. apply list_elem_of_here.
Qed.

(** Instance: the overclaiming file satisfies the conditions of the code. *)
Lemma ringbuf_load_attaches_exactly_witness :
  layout_ok spec_layout = true /\
  w_fs overclaiming_world !! "rb" = Some overclaiming_file /\
  off_t_size overclaiming_file /\
  (attached (ringbuf_load spec_layout load_ok "rb" overclaiming_world) <->
   ld_open load_ok = true /\ ld_lseek load_ok = true /\
   ld_mmap load_ok = true /\
   sizeof spec_layout < Z.of_nat (length overclaiming_file) /\
   u32 (sizeof spec_layout + get_nb_words spec_layout overclaiming_file * 4)
   = u32 (Z.of_nat (length overclaiming_file)) /\
   get_prod_head spec_layout overclaiming_file
   < get_nb_words spec_layout overclaiming_file /\
   get_prod_tail spec_layout overclaiming_file
   < get_nb_words spec_layout overclaiming_file /\
   get_cons_head spec_layout overclaiming_file
   < get_nb_words spec_layout overclaiming_file /\
   get_cons_tail spec_layout overclaiming_file
   < get_nb_words spec_layout overclaiming_file).
Proof.
  assert (Hc : w_fs overclaiming_world !! "rb" = Some overclaiming_file)
    by (vm_compute; reflexivity).
  assert (Hsz : off_t_size overclaiming_file)
    by (unfold off_t_size; vm_compute; reflexivity).
  split; [reflexivity|]. split; [exact Hc|]. split; [exact Hsz|].
  exact (ringbuf_load_attaches_exactly spec_layout eq_refl load_ok "rb"
           overclaiming_world overclaiming_file Hc Hsz).
Defined.

(** Instance: create with capacity 8, then attach. *)
Lemma ringbuf_create_then_load_attaches_witness :
  layout_ok spec_layout = true /\
  is_u32 8 /\
  1 <= 8 /\
  ringbuf_create spec_layout env_ok "rb" 8 empty_world = Ret 0 world8 /\
  attached (ringbuf_load spec_layout load_ok "rb" world8).
Proof.
  assert (Hu : is_u32 8) by (unfold is_u32; lia).
  assert (Hpos : 1 <= 8) by lia.
  assert (Hrun : ringbuf_create spec_layout env_ok "rb" 8 empty_world
                 = Ret 0 world8) by (vm_compute; reflexivity).
  split; [reflexivity|]. split; [exact Hu|]. split; [exact Hpos|].
  split; [exact Hrun|].
  exact (ringbuf_create_then_load_attaches spec_layout eq_refl env_ok load_ok
           "rb" 8 empty_world world8 Hu Hpos Hrun eq_refl eq_refl eq_refl).
Defined.

(** ** The protocol: the claims *)

Section ProtocolFacts.

Lemma length_frames (msgs : list (list Z)) :
  Z.of_nat (length (frames msgs)) = total_footprint msgs.
Proof.
  unfold frames, total_footprint, footprint.
  induction msgs as [| m msgs IH]; [done|].
  cbn [fmap list_fmap concat foldr]. rewrite length_app. cbn [frame length].
  lia.
Qed.

Lemma frames_app (ms1 ms2 : list (list Z)) :
  frames (ms1 ++ ms2) = frames ms1 ++ frames ms2.
Proof. unfold frames. by rewrite fmap_app, concat_app. Qed.

Lemma frames_cons (m : list Z) (msgs : list (list Z)) :
  frames (m :: msgs) = frame m ++ frames msgs.
Proof. reflexivity. Qed.

Lemma frames_single (m : list Z) : frames [m] = frame m.
Proof. unfold frames. cbn [fmap list_fmap concat]. apply app_nil_r. Qed.

Lemma total_footprint_nonneg (msgs : list (list Z)) : 0 <= total_footprint msgs.
Proof. rewrite <- length_frames. lia. Qed.

Lemma holds_fresh (n : Z) : 1 <= n -> holds (fresh n) [].
Proof.
  intros Hn. unfold holds, quiescent, fresh. cbn.
  repeat split; try lia.
  - rewrite length_replicate. lia.
  - exists [], (replicate (Z.to_nat n) 0). by cbn.
Qed.

Lemma mod_complement (a n : Z) :
  0 < n -> (- a - 1) mod n = n - 1 - a mod n.
Proof.
  intros Hn. pose proof (Z.div_mod a n ltac:(lia)) as Hdiv.
  pose proof (Z.mod_pos_bound a n Hn) as Hr.
  symmetry. apply (Z.mod_unique _ _ (- (a / n) - 1)); lia.
Qed.

(** Claim C5.  In every quiescent state ([prod_tail = prod_head],
    [cons_tail = cons_head], all counters below [nb_words], hence
    [nb_words >= 1]), [nb_entries + nb_free + 1 = nb_words], where
    [nb_entries(P_t, C_h) = (P_t - C_h) mod nb_words] and
    [nb_free(P_h, C_t) = (C_t - P_h - 1) mod nb_words]. *)
Theorem nb_entries_nb_free_quiescent (rb : ringbuf) :
  quiescent rb ->
  ringbuf_nb_entries rb (rb_prod_tail rb) (rb_cons_head rb)
  + ringbuf_nb_free rb (rb_prod_head rb) (rb_cons_tail rb) + 1
  = rb_nb_words rb.
Proof.
  intros (Hpt & Hct & Hp & Hc). rewrite Hpt, Hct.
  unfold ringbuf_nb_entries, ringbuf_nb_free.
  replace (rb_cons_head rb - rb_prod_head rb - 1)
    with (- (rb_prod_head rb - rb_cons_head rb) - 1) by lia.
  rewrite mod_complement by lia. lia.
Qed.

Lemma list_inserts_block {A : Type} (l1 k old l3 : list A) :
  length old = length k ->
  list_inserts (length l1) k (l1 ++ old ++ l3) = l1 ++ k ++ l3.
Proof.
  intros Hlen.
  replace (length l1) with (length l1 + 0)%nat by lia.
  rewrite list_inserts_app_r. f_equal. by apply list_inserts_0_r.
Qed.

Lemma nb_free_linear (n p c : Z) :
  0 <= c <= p -> p < n -> (c - p - 1) mod n = n - 1 - (p - c).
Proof.
  intros Hc Hp. symmetry. apply (Z.mod_unique _ _ (-1)); lia.
Qed.

(** One enqueue on a buffer that holds [msgs] and has room left before the
    end of the data area. *)
Lemma enqueue_holds (rb : ringbuf) (msgs : list (list Z)) (m : list Z) :
  holds rb msgs ->
  rb_prod_head rb + footprint m <= rb_nb_words rb - 1 ->
  exists rb' : ringbuf,
    ringbuf_enqueue rb m = (Ok tt, rb') /\
    holds rb' (msgs ++ [m]) /\
    rb_nb_words rb' = rb_nb_words rb /\
    rb_prod_head rb' = rb_prod_head rb + footprint m.
Proof.
  destruct rb as [n ph pt ch ct data]. unfold holds, quiescent, footprint.
  cbn [rb_nb_words rb_prod_head rb_prod_tail rb_cons_head rb_cons_tail rb_data].
  intros ((-> & -> & Hph & Hch) & Hn & pre & post & Hdata & Hpre & Hfr) Hroom.
  unfold ringbuf_enqueue, ringbuf_enqueue_alloc, ringbuf_nb_free,
    ringbuf_enqueue_commit, write_words, with_prod_head, with_prod_tail.
  cbn [rb_nb_words rb_prod_head rb_prod_tail rb_cons_head rb_cons_tail rb_data].
  set (len := Z.of_nat (length m)) in *.
  rewrite nb_free_linear by lia.
  rewrite (proj2 (Z.ltb_ge _ _)) by lia.
  rewrite (proj2 (Z.leb_le _ _)) by lia.
  cbn [rb_nb_words rb_prod_head rb_prod_tail rb_cons_head rb_cons_tail rb_data
       tx_seen tx_next tx_start].
  rewrite (Z.mod_small (ph + len + 1) n) by lia.
  rewrite Z.eqb_refl.
  eexists. split; [reflexivity|].
  cbn [rb_nb_words rb_prod_head rb_prod_tail rb_cons_head rb_cons_tail rb_data].
  split; [|split; [reflexivity | lia]].
  split; [repeat split; lia|].
  split; [by rewrite !length_inserts|].
  (* the data area after the two stores *)
  assert (Hpost : Z.of_nat (length post) = n - ph).
  { rewrite <- Hn, Hdata, !length_app. lia. }
  destruct post as [| x post']; [cbn [length] in Hpost; lia|].
  cbn [length] in Hpost.
  exists pre, (drop (length m) post').
  split; [|split; [exact Hpre|]].
  - rewrite Hdata, frames_app.
    replace (Z.to_nat ph) with (length (pre ++ frames msgs))
      by (rewrite length_app; lia).
    replace (pre ++ frames msgs ++ x :: post')
      with ((pre ++ frames msgs) ++ [x] ++ post')
      by (by rewrite <- !app_assoc).
    rewrite (list_inserts_block _ [len] [x]) by done.
    replace (Z.to_nat (ph + 1))
      with (length ((pre ++ frames msgs) ++ [len]))
      by (rewrite !length_app; cbn [length]; lia).
    rewrite <- (take_drop (length m) post') at 1.
    replace ((pre ++ frames msgs) ++ [len] ++ take (length m) post'
             ++ drop (length m) post')
      with (((pre ++ frames msgs) ++ [len]) ++ take (length m) post'
            ++ drop (length m) post')
      by (by rewrite <- !app_assoc).
    rewrite (list_inserts_block _ m) by (rewrite length_take; lia).
    rewrite frames_single. unfold frame. fold len.
    rewrite <- !app_assoc. reflexivity.
  - rewrite frames_app, length_app, frames_single. unfold frame.
    cbn [length]. lia.
Qed.

(** One dequeue from a buffer that holds [m :: msgs]. *)
Lemma dequeue_holds (rb : ringbuf) (m : list Z) (msgs : list (list Z)) :
  holds rb (m :: msgs) ->
  Z.of_nat (length m) <> UINT32_MAX ->
  exists rb' : ringbuf,
    ringbuf_dequeue rb = (Ok m, rb') /\
    holds rb' msgs /\
    rb_nb_words rb' = rb_nb_words rb.
Proof.
  destruct rb as [n ph pt ch ct data]. unfold holds, quiescent.
  cbn [rb_nb_words rb_prod_head rb_prod_tail rb_cons_head rb_cons_tail rb_data].
  intros ((-> & -> & Hph & Hch) & Hn & pre & post & Hdata & Hpre & Hfr) Hmax.
  set (len := Z.of_nat (length m)) in *.
  rewrite frames_cons in Hdata, Hfr. unfold frame in Hdata, Hfr.
  rewrite length_app in Hfr. cbn [length] in Hfr.
  unfold ringbuf_dequeue, ringbuf_dequeue_alloc, ringbuf_dequeue_commit,
    read_word, read_words, with_cons_head, with_cons_tail.
  cbn [rb_nb_words rb_prod_head rb_prod_tail rb_cons_head rb_cons_tail rb_data
       tx_seen tx_next tx_start tx_len].
  rewrite (proj2 (Z.eqb_neq ch ph)) by lia.
  assert (Hlook : data !! Z.to_nat ch = Some len).
  { rewrite Hdata. replace (Z.to_nat ch) with (length pre + 0)%nat by lia.
    by rewrite lookup_app_r, Nat.add_comm, Nat.add_sub by lia. }
  rewrite Hlook. cbn [default from_option]. unfold id.
  rewrite (proj2 (Z.eqb_neq len UINT32_MAX)) by done.
  cbn [rb_nb_words rb_prod_head rb_prod_tail rb_cons_head rb_cons_tail rb_data
       tx_seen tx_next tx_start tx_len].
  rewrite Z.eqb_refl.
  rewrite (Z.mod_small (ch + len + 1) n) by lia.
  assert (Hread : take (Z.to_nat len) (drop (Z.to_nat (ch + 1)) data) = m).
  { assert (Hsplit : data = (pre ++ [len]) ++ m ++ frames msgs ++ post)
      by (rewrite Hdata, <- !app_assoc; reflexivity).
    rewrite Hsplit.
    rewrite drop_app_length' by (rewrite length_app; cbn [length]; lia).
    apply take_app_length'. lia. }
  rewrite Hread.
  eexists. split; [reflexivity|].
  cbn [rb_nb_words rb_prod_head rb_prod_tail rb_cons_head rb_cons_tail rb_data].
  split; [|reflexivity].
  split; [repeat split; lia|]. split; [exact Hn|].
  exists (pre ++ len :: m), post. split; [|split].
  - rewrite Hdata, <- !app_assoc. reflexivity.
  - rewrite length_app. cbn [length]. lia.
  - rewrite length_app. cbn [length]. lia.
Qed.

Lemma enqueue_all_holds (msgs : list (list Z)) :
  forall (rb : ringbuf) (held : list (list Z)),
    holds rb held ->
    rb_prod_head rb + total_footprint msgs <= rb_nb_words rb - 1 ->
    exists rb' : ringbuf,
      enqueue_all rb msgs = Some rb' /\
      holds rb' (held ++ msgs) /\
      rb_nb_words rb' = rb_nb_words rb /\
      rb_prod_head rb' = rb_prod_head rb + total_footprint msgs.
Proof.
  induction msgs as [| m msgs IH]; intros rb held Hh Hroom.
  - exists rb. cbn [enqueue_all total_footprint foldr].
    rewrite app_nil_r. split; [done|]. split; [done|]. split; [done | lia].
  - cbn [total_footprint foldr] in Hroom. fold (total_footprint msgs) in Hroom.
    pose proof (total_footprint_nonneg msgs) as Hnn.
    destruct (enqueue_holds rb held m Hh) as (rb1 & Hen & Hh1 & Hn1 & Hp1);
      [lia|].
    destruct (IH rb1 (held ++ [m]) Hh1) as (rb2 & Hall & Hh2 & Hn2 & Hp2);
      [rewrite Hn1, Hp1; lia|].
    exists rb2. cbn [enqueue_all]. rewrite Hen.
    split; [exact Hall|]. split; [by rewrite <- app_assoc in Hh2|].
    split; [congruence|].
    cbn [total_footprint foldr]. fold (total_footprint msgs). lia.
Qed.

Lemma dequeue_n_holds (msgs : list (list Z)) :
  forall (rb : ringbuf) (rest : list (list Z)),
    holds rb (msgs ++ rest) ->
    Forall (fun m => Z.of_nat (length m) <> UINT32_MAX) msgs ->
    exists rb' : ringbuf,
      dequeue_n (length msgs) rb = Some (msgs, rb') /\ holds rb' rest.
Proof.
  induction msgs as [| m msgs IH]; intros rb rest Hh Hall.
  - exists rb. by cbn.
  - apply Forall_cons in Hall as [Hm Hall].
    destruct (dequeue_holds rb m (msgs ++ rest) Hh Hm) as (rb1 & Hde & Hh1 & _).
    destruct (IH rb1 rest Hh1 Hall) as (rb2 & Hn & Hh2).
    exists rb2. cbn [length dequeue_n]. by rewrite Hde, Hn.
Qed.

(** Claim C4.  For messages [m_1 ... m_k], each of 1 to [nb_words - 2]
    words, whose total footprint (the sum of [|m_i| + 1]) is at most
    [nb_words - 1]: enqueuing them in order on a freshly created buffer
    succeeds, and [k] dequeues then return exactly these messages, word for
    word, in the same order.  ([nb_words] is a 32-bit value, so that no
    length is the wrap sentinel.) *)
Theorem enqueue_dequeue_round_trip (n : Z) (msgs : list (list Z)) :
  n <= UINT32_MAX ->
  Forall (fun m => 1 <= Z.of_nat (length m) <= n - 2) msgs ->
  total_footprint msgs <= n - 1 ->
  exists rb1 rb2 : ringbuf,
    enqueue_all (fresh n) msgs = Some rb1 /\
    dequeue_n (length msgs) rb1 = Some (msgs, rb2).
Proof.
  intros Hn Hall Hfp.
  destruct msgs as [| m0 msgs0] eqn:Emsgs.
  { exists (fresh n), (fresh n). by cbn. }
  rewrite <- Emsgs in *.
  assert (Hn3 : 3 <= n).
  { rewrite Emsgs in Hall. apply Forall_cons in Hall as [? _]. lia. }
  destruct (enqueue_all_holds msgs (fresh n) [] (holds_fresh n ltac:(lia)))
    as (rb1 & Hen & Hh1 & _); [cbn; lia|].
  cbn [app] in Hh1.
  destruct (dequeue_n_holds msgs rb1 []) as (rb2 & Hde & _).
  - by rewrite app_nil_r.
  - eapply Forall_impl; [exact Hall|]. cbn. intros m Hm. unfold UINT32_MAX in *.
    lia.
  - by exists rb1, rb2.
Qed.

(** Claim C6.  One word is never used.  When the words held,
    [nb_entries], are [nb_words - 1], every further enqueue of a payload of
    at least one word fails with [NOT_ENOUGH_SPACE] and leaves the buffer as
    it was.  That is the state of a buffer holding messages whose total
    footprint is [nb_words - 1]: enqueuing such messages on a fresh buffer
    leads to it. *)
Theorem full_buffer_rejects_enqueue :
  (forall (rb : ringbuf) (data : list Z),
     quiescent rb ->
     ringbuf_nb_entries rb (rb_prod_tail rb) (rb_cons_head rb)
     = rb_nb_words rb - 1 ->
     (1 <= length data)%nat ->
     ringbuf_enqueue rb data = (Err NOT_ENOUGH_SPACE, rb)) /\
  (forall (n : Z) (msgs : list (list Z)) (rb : ringbuf),
     1 <= n ->
     total_footprint msgs = n - 1 ->
     enqueue_all (fresh n) msgs = Some rb ->
     quiescent rb /\
     rb_nb_words rb = n /\
     ringbuf_nb_entries rb (rb_prod_tail rb) (rb_cons_head rb) = n - 1).
Proof.
  split.
  - intros rb data Hq Hfull Hlen.
    destruct Hq as (Hpt & Hct & Hp & Hc).
    unfold ringbuf_enqueue, ringbuf_enqueue_alloc, ringbuf_nb_free.
    unfold ringbuf_nb_entries in Hfull. rewrite Hpt in Hfull. rewrite Hct.
    replace (rb_cons_head rb - rb_prod_head rb - 1)
      with (- (rb_prod_head rb - rb_cons_head rb) - 1) by lia.
    rewrite mod_complement, Hfull by lia.
    rewrite (proj2 (Z.ltb_lt _ _)) by lia. reflexivity.
  - intros n msgs rb Hn Hfp Hen.
    destruct (enqueue_all_holds msgs (fresh n) [] (holds_fresh n Hn))
      as (rb1 & Hen1 & Hh1 & Hn1 & Hp1); [cbn; lia|].
    rewrite Hen in Hen1. injection Hen1 as <-.
    destruct Hh1 as (Hq & _ & pre & post & _ & Hpre & Hfr).
    split; [exact Hq|]. split; [exact Hn1|].
    destruct Hq as (Hpt & Hct & Hph & Hch).
    cbn [app] in Hfr. rewrite length_frames, Hp1 in Hfr.
    cbn [fresh rb_prod_head rb_nb_words] in *.
    unfold ringbuf_nb_entries. rewrite Hpt, Hn1, Hp1.
    rewrite Z.mod_small; lia.
Qed.
End ProtocolFacts.

(** Instance of claim C4: scenario E2, capacity 8, messages [1,2,3] and
    [4]. *)
Lemma enqueue_dequeue_round_trip_witness :
  8 <= UINT32_MAX /\
  Forall (fun m => 1 <= Z.of_nat (length m) <= 8 - 2) [[1; 2; 3]; [4]] /\
  total_footprint [[1; 2; 3]; [4]] <= 8 - 1 /\
  exists rb1 rb2 : ringbuf,
    enqueue_all (fresh 8) [[1; 2; 3]; [4]] = Some rb1 /\
    dequeue_n (length [[1; 2; 3]; [4]]) rb1 = Some ([[1; 2; 3]; [4]], rb2).
Proof.
  assert (Hn : 8 <= UINT32_MAX) by (vm_compute; discriminate).
  assert (Hall : Forall (fun m => 1 <= Z.of_nat (length m) <= 8 - 2)
                   [[1; 2; 3]; [4]])
    by (repeat constructor; cbn; lia).
  assert (Hfp : total_footprint [[1; 2; 3]; [4]] <= 8 - 1)
    by (vm_compute; discriminate).
  split; [exact Hn|]. split; [exact Hall|]. split; [exact Hfp|].
  exact (enqueue_dequeue_round_trip 8 [[1; 2; 3]; [4]] Hn Hall Hfp).
Defined.

(** Instance of claim C5: capacity 8 after one message of one word
    (scenario E1): 2 words held, 5 free. *)
Lemma nb_entries_nb_free_quiescent_witness :
  quiescent (ringbuf_enqueue (fresh 8) [42]).2 /\
  ringbuf_nb_entries (ringbuf_enqueue (fresh 8) [42]).2 2 0 = 2 /\
  ringbuf_nb_free (ringbuf_enqueue (fresh 8) [42]).2 2 0 = 5 /\
  ringbuf_nb_entries (ringbuf_enqueue (fresh 8) [42]).2
    (rb_prod_tail (ringbuf_enqueue (fresh 8) [42]).2)
    (rb_cons_head (ringbuf_enqueue (fresh 8) [42]).2)
  + ringbuf_nb_free (ringbuf_enqueue (fresh 8) [42]).2
      (rb_prod_head (ringbuf_enqueue (fresh 8) [42]).2)
      (rb_cons_tail (ringbuf_enqueue (fresh 8) [42]).2) + 1
  = rb_nb_words (ringbuf_enqueue (fresh 8) [42]).2.
Proof.
  assert (Hq : quiescent (ringbuf_enqueue (fresh 8) [42]).2)
    by (unfold quiescent; vm_compute; repeat split; discriminate).
  split; [exact Hq|]. split; [reflexivity|]. split; [reflexivity|].
  exact (nb_entries_nb_free_quiescent _ Hq).
Defined.

(** Instance of claim C6: scenario E3, capacity 8 holding one message of six
    words; a further one-word message is refused. *)
Lemma full_buffer_rejects_enqueue_witness :
  quiescent full8 /\
  ringbuf_nb_entries full8 (rb_prod_tail full8) (rb_cons_head full8)
  = rb_nb_words full8 - 1 /\
  enqueue_all (fresh 8) [[7; 7; 7; 7; 7; 7]] = Some full8 /\
  total_footprint [[7; 7; 7; 7; 7; 7]] = 8 - 1 /\
  ringbuf_enqueue full8 [1] = (Err NOT_ENOUGH_SPACE, full8).
Proof.
  assert (Hq : quiescent full8)
    by (unfold quiescent; vm_compute; repeat split; discriminate).
  assert (Hfull : ringbuf_nb_entries full8 (rb_prod_tail full8)
                    (rb_cons_head full8) = rb_nb_words full8 - 1)
    by reflexivity.
  split; [exact Hq|]. split; [exact Hfull|].
  split; [reflexivity|]. split; [reflexivity|].
  exact (proj1 full_buffer_rejects_enqueue full8 [1] Hq Hfull
           (le_n 1)).
Defined.

(** ** Further properties of [ringbuf_create], [ringbuf_load] and
    [ringbuf_unload] *)

Section CreateProperties.
Variable L : layout.
Hypothesis HL : layout_ok L = true.

Lemma ringbuf_create_success_file (e : create_env) (fname : string)
    (tot : Z) (w w' : world) :
  is_u32 tot ->
  ringbuf_create L e fname tot w = Ret 0 w' ->
  w_fs w' !! fname = Some (fresh_file L (ce_stack e) tot).
Proof.
  intros Hu Hrun.
  destruct (ringbuf_create_cases L HL e fname tot w Hu)
    as (r & w1 & evs & Heq & _ & _ & Hcases). cbv zeta in Hcases.
  rewrite Hrun in Heq. injection Heq as <- <-.
  destruct Hcases as [(_ & Hr & _) | [(_ & _ & Hr & _) | [(_ & _ & _ & Hr & _)
    | (_ & _ & _ & _ & Hfs & _)]]]; try discriminate Hr.
  rewrite Hfs. apply lookup_insert_eq.
Qed.

(** The data area of a new ring buffer is zeroed: after a successful
    [ringbuf_create], every byte of the file past the header is 0.  The
    code never writes there; the zeros are those [ftruncate] extends the
    empty file with. *)
Theorem ringbuf_create_data_area_zero (e : create_env) (fname : string)
    (tot_words : Z) (w w' : world) (c : list byte) :
  is_u32 tot_words ->
  ringbuf_create L e fname tot_words w = Ret 0 w' ->
  w_fs w' !! fname = Some c ->
  forall i : nat, (sizeof_rb L <= i < length c)%nat -> c !! i = Some x00.
Proof.
  intros Hu Hrun Hc i Hi.
  rewrite (ringbuf_create_success_file e fname tot_words w w' Hu Hrun) in Hc.
  injection Hc as <-. unfold fresh_file in *.
  pose proof (length_initial_rb L HL (ce_stack e) tot_words) as Hlen.
  rewrite length_app, length_replicate, Hlen in Hi.
  rewrite lookup_app_r by lia. apply lookup_replicate_2. lia.
Qed.

Lemma in_field_false (off w i : nat) :
  in_field off w i = false -> (i < off \/ off + w <= i)%nat.
Proof.
  unfold in_field. rewrite andb_false_iff, Nat.leb_gt, Nat.ltb_ge. lia.
Qed.

(** [ringbuf_create] writes the whole of its local [struct ringbuf] to the
    file after assigning [nb_words] and the four counters only.  Every
    other byte of the header on disk ([mmapped_size], padding) is the byte
    the stack held at that place: uninitialised memory reaches the file. *)
Theorem ringbuf_create_writes_stack_bytes (e : create_env) (fname : string)
    (tot_words : Z) (w w' : world) (c : list byte) :
  is_u32 tot_words ->
  ringbuf_create L e fname tot_words w = Ret 0 w' ->
  w_fs w' !! fname = Some c ->
  (forall i : nat,
     (i < sizeof_rb L)%nat -> assigned L i = false ->
     c !! i = resize (sizeof_rb L) x00 (ce_stack e) !! i) /\
  get_mmapped_size L c
  = get_mmapped_size L (resize (sizeof_rb L) x00 (ce_stack e)).
Proof.
  intros Hu Hrun Hc.
  rewrite (ringbuf_create_success_file e fname tot_words w w' Hu Hrun) in Hc.
  injection Hc as <-.
  pose proof (length_initial_rb L HL (ce_stack e) tot_words) as Hlen.
  split.
  - intros i Hi Hna. unfold fresh_file. rewrite lookup_app_l by lia.
    layout_bounds HL.
    unfold assigned in Hna. rewrite !orb_false_iff in Hna.
    destruct Hna as ((((Hn & Hph) & Hpt) & Hch) & Hct).
    apply in_field_false in Hn, Hph, Hpt, Hch, Hct.
    unfold initial_rb. unfold_fields.
    rewrite !lookup_store_le_outside by (first [assumption | solve_len]).
    reflexivity.
  - unfold fresh_file. layout_bounds HL. unfold get_mmapped_size.
    rewrite load_le_app_l by lia.
    fold (get_mmapped_size L (initial_rb L (ce_stack e) tot_words)).
    by apply initial_rb_mmapped_size.
Qed.

(** When a file exists at the path and [unlink] fails, [ringbuf_create]
    goes on (the failure is only reported), its exclusive [open] fails in
    turn, and the call returns -1 after these two system calls, leaving
    the old file and every other file as they were. *)
Theorem ringbuf_create_unlink_failure (e : create_env) (fname : string)
    (tot_words : Z) (w : world) :
  is_u32 tot_words ->
  is_Some (w_fs w !! fname) ->
  ce_unlink e = false ->
  exists w' : world,
    ringbuf_create L e fname tot_words w = Ret (-1) w' /\
    w_fs w' = w_fs w /\
    new_events w w' [Ev SysUnlink fname false; Ev SysOpen fname false].
Proof.
  intros Hu [c0 Hc0] Hun.
  assert (Hunl : unlinked e fname w = false)
    by (unfold unlinked; by rewrite Hc0, Hun).
  assert (Hcr : created e fname w = false)
    by (unfold created, fs_after_unlink; by rewrite Hunl, Hc0).
  destruct (ringbuf_create_cases L HL e fname tot_words w Hu)
    as (r & w' & evs & Heq & _ & Hlog & Hcases). cbv zeta in Hcases.
  destruct Hcases
    as [(_ & -> & Hfs & ->) | [(Hc & _) | [(Hc & _) | (Hc & _)]]];
    try congruence.
  exists w'. split; [exact Heq|]. split.
  - rewrite Hfs. unfold fs_after_unlink. by rewrite Hunl.
  - unfold new_events. by rewrite Hlog, Hunl.
Qed.

(** [ringbuf_create] leaks no descriptor and maps nothing: it calls [open]
    once; when [open] succeeds it calls [close] once, as its last system
    call, whether [ftruncate] and [write] succeed or not; when [open] fails
    it does not call [close]. *)
Theorem ringbuf_create_closes_descriptor (e : create_env) (fname : string)
    (tot_words : Z) (w : world) :
  is_u32 tot_words ->
  exists (r : Z) (w' : world) (evs : list event),
    ringbuf_create L e fname tot_words w = Ret r w' /\
    new_events w w' evs /\
    w_maps w' = w_maps w /\
    calls SysOpen evs = 1%nat /\
    (created e fname w = true ->
     calls SysClose evs = 1%nat /\
     last evs = Some (Ev SysClose fname (ce_close e))) /\
    (created e fname w = false -> calls SysClose evs = 0%nat).
Proof.
  intros Hu.
  destruct (ringbuf_create_cases L HL e fname tot_words w Hu)
    as (r & w' & evs & Heq & Hmaps & Hlog & Hcases). cbv zeta in Hcases.
  exists r, w', (Ev SysUnlink fname (unlinked e fname w) :: evs).
  split; [exact Heq|]. split; [exact Hlog|]. split; [exact Hmaps|].
  destruct Hcases as [(Hc & _ & _ & ->) | [(Hc & _ & _ & _ & ->)
    | [(Hc & _ & _ & _ & _ & ->) | (Hc & _ & _ & _ & _ & ->)]]].
  all: split; [reflexivity|].
  all: split; [intros Hc'; try congruence; split; reflexivity
              | intros Hc'; try congruence; reflexivity].
Qed.

End CreateProperties.

Lemma store_le_idem (off w : nat) (v : Z) (m : list byte) :
  (off + w <= length m)%nat ->
  store_le off w v (store_le off w v m) = store_le off w v m.
Proof.
  intros H. unfold store_le.
  rewrite take_app_length' by (rewrite length_take; lia).
  f_equal. f_equal. rewrite app_assoc.
  rewrite drop_app_length'
    by (rewrite length_app, length_take, length_le_encode; lia).
  reflexivity.
Qed.




(** A short list of events holds no [munmap] and no successful [mmap]. *)
Ltac no_mmap :=
  split; [reflexivity|];
  rewrite !elem_of_cons, elem_of_nil; intros H;
  repeat (destruct H as [H | H]; [discriminate H|]); exact H.

Section LoadProperties.
Variable L : layout.
Hypothesis HL : layout_ok L = true.

(** The log of a run of [ringbuf_load] on an existing file, whether it
    returns or faults. *)
Lemma ringbuf_load_log (e : load_env) (fname : string) (w : world)
    (c : list byte) :
  w_fs w !! fname = Some c ->
  off_t_size c ->
  new_events w (world_of (ringbuf_load L e fname w)) (load_trace L e fname c).
Proof.
  intros Hc Hsz. unfold off_t_size in Hsz.
  set (len := Z.of_nat (length c)) in *.
  assert (Hlen : usize len = len) by (apply wrap_small; lia).
  assert (Hne : (len =? -1) = false) by (apply Z.eqb_neq; lia).
  destruct e as [op ls mm mu cl].
  unfold new_events, load_trace, ringbuf_load, bind, ret, sys_open_rdwr.
  cbn [ld_open ld_lseek ld_mmap ld_munmap ld_close]. rewrite Hc.
  destruct op; cbn [negb]; cbv beta iota; [|reflexivity].
  unfold sys_lseek_end. cbn [log set_fs w_fs w_log w_maps]. rewrite Hc.
  destruct ls; cbn [negb]; cbv beta iota.
  2: { change (-1 =? -1) with true. cbv beta iota.
       unfold sys_close. destruct cl; cbn [world_of log w_log];
         rewrite <- !app_assoc; reflexivity. }
  fold len. rewrite Hne, Hlen.
  destruct (len <=? sizeof L) eqn:Esz; cbv beta iota.
  { unfold sys_close. destruct cl; cbn [world_of log w_log];
      rewrite <- !app_assoc; reflexivity. }
  unfold sys_mmap. destruct mm; cbn [negb]; cbv beta iota.
  2: { unfold sys_close. destruct cl; cbn [world_of log w_log];
         rewrite <- !app_assoc; reflexivity. }
  assert (Hd : forall w0, w_fs w0 = w_fs w -> (fname, len) ∈ w_maps w0 ->
            deref (Some (fname, len)) w0 = Some (fname, c)).
  { intros w0 Hfs Hin. unfold deref. rewrite decide_True by done.
    cbn [fst]. by rewrite Hfs, Hc. }
  rewrite (sanity_checks_run L (fname, len) _ c len)
    by (apply Hd; [done | apply list_elem_of_here]).
  destruct (checks L c len) eqn:Eck; cbn [negb]; cbv beta iota.
  - unfold mem_store. rewrite Hd by (done || apply list_elem_of_here).
    unfold sys_close. destruct cl;
      cbn [world_of log set_fs set_maps w_fs w_log w_maps];
      rewrite <- !app_assoc; reflexivity.
  - unfold sys_munmap. destruct mu; cbv beta iota;
      unfold mem_store, deref;
      cbn [world_of log set_fs set_maps w_fs w_log w_maps fst];
      rewrite <- !app_assoc; reflexivity.
Qed.


(** Whenever [ringbuf_load] returns [NULL] (missing file, failing [open],
    [lseek] or [mmap], file not longer than the header), no file has
    changed, the live mappings are those of before, no mapping was
    established and [munmap] was not called. *)
Theorem ringbuf_load_null_changes_nothing (e : load_env) (fname : string)
    (w w' : world) :
  (forall c : list byte, w_fs w !! fname = Some c -> off_t_size c) ->
  ringbuf_load L e fname w = Ret None w' ->
  w_fs w' = w_fs w /\ w_maps w' = w_maps w /\
  exists evs : list event,
    new_events w w' evs /\ calls SysMunmap evs = 0%nat /\
    Ev SysMmap fname true ∉ evs.
Proof.
  intros Hsz Hrun. destruct (w_fs w !! fname) as [c|] eqn:Hc.
  - specialize (Hsz c eq_refl).
    pose proof (ringbuf_load_log e fname w c Hc Hsz) as Hlog.
    destruct (ringbuf_load_cases L e fname w c Hc Hsz)
      as [(w1 & Heq & Hfs & Hmaps & Hwhy)
         | [(_ & _ & _ & _ & _ & w1 & Heq & _)
           | (_ & _ & _ & _ & _ & w1 & Heq & _)]];
      cbv zeta in *; rewrite Hrun in Heq; try discriminate Heq.
    injection Heq as <-. rewrite Hrun in Hlog. cbn [world_of] in Hlog.
    split; [exact Hfs|]. split; [exact Hmaps|].
    exists (load_trace L e fname c). split; [exact Hlog|].
    unfold load_trace. destruct e as [op ls mm mu cl].
    cbn [ld_open ld_lseek ld_mmap ld_munmap ld_close] in *.
    destruct op; cbn [negb]; [|no_mmap].
    destruct ls; cbn [negb]; [|no_mmap].
    destruct (Z.of_nat (length c) <=? sizeof L) eqn:E; [no_mmap|].
    apply Z.leb_gt in E.
    destruct mm; cbn [negb]; [|no_mmap].
    destruct Hwhy as [? | [? | [? | ?]]]; congruence || lia.
  - rewrite (ringbuf_load_missing L e fname w Hc) in Hrun.
    injection Hrun as <-. split; [reflexivity|]. split; [reflexivity|].
    exists [Ev SysOpen fname false]. split; [reflexivity|]. no_mmap.
Qed.

(** Whenever [ringbuf_load] returns, with a handle or with [NULL], it has
    called [open] once, first; if [open] gave a descriptor, [close] is the
    last system call and the only [close]; if it did not, nothing else was
    called. *)
Theorem ringbuf_load_closes_descriptor (e : load_env) (fname : string)
    (w w' : world) (rb : ptr) :
  (forall c : list byte, w_fs w !! fname = Some c -> off_t_size c) ->
  ringbuf_load L e fname w = Ret rb w' ->
  exists evs : list event,
    new_events w w' evs /\
    head evs = Some (Ev SysOpen fname (opened e fname w)) /\
    calls SysOpen evs = 1%nat /\
    (opened e fname w = true ->
     calls SysClose evs = 1%nat /\
     last evs = Some (Ev SysClose fname (ld_close e))) /\
    (opened e fname w = false -> evs = [Ev SysOpen fname false]).
Proof.
  intros Hsz Hrun. unfold opened. destruct (w_fs w !! fname) as [c|] eqn:Hc.
  - specialize (Hsz c eq_refl).
    pose proof (ringbuf_load_log e fname w c Hc Hsz) as Hlog.
    rewrite Hrun in Hlog. cbn [world_of] in Hlog.
    exists (load_trace L e fname c). split; [exact Hlog|].
    destruct (ringbuf_load_cases L e fname w c Hc Hsz)
      as [(w1 & Heq & _ & _ & Hwhy)
         | [(_ & _ & _ & _ & _ & w1 & Heq & _)
           | (Ho & Hl & Hlen & Hm & Hck & _)]];
      cbv zeta in *.
    + clear Hrun Heq Hlog. unfold load_trace. destruct e as [op ls mm mu cl].
      cbn [ld_open ld_lseek ld_mmap ld_munmap ld_close] in *.
      destruct op; cbn [negb]; [|repeat split; done].
      destruct ls; cbn [negb]; [|repeat split; done].
      destruct (Z.of_nat (length c) <=? sizeof L) eqn:E;
        [repeat split; done|].
      apply Z.leb_gt in E.
      destruct mm; cbn [negb]; [|repeat split; done].
      destruct Hwhy as [? | [? | [? | ?]]]; congruence || lia.
    + rewrite Hrun in Heq. discriminate Heq.
    + unfold load_trace. rewrite Ho, Hl, Hm, Hck. cbn [negb].
      apply Z.leb_gt in Hlen. rewrite Hlen. repeat split; done.
  - rewrite (ringbuf_load_missing L e fname w Hc) in Hrun.
    injection Hrun as <- <-.
    exists [Ev SysOpen fname false]. repeat split; done.
Qed.

(** Attaching a file that has been attached before stores the bytes the
    field already holds. *)
Lemma ringbuf_load_reattach (e : load_env) (fname : string) (w : world)
    (c0 : list byte) :
  let len := Z.of_nat (length c0) in
  w_fs w !! fname = Some (set_mmapped_size L len c0) ->
  off_t_size c0 ->
  sizeof L < len ->
  checks L c0 len = true ->
  ld_open e = true -> ld_lseek e = true -> ld_mmap e = true ->
  exists w' : world,
    ringbuf_load L e fname w = Ret (Some (fname, len)) w' /\
    w_fs w' = w_fs w /\
    w_maps w' = (fname, len) :: w_maps w.
Proof.
  intros len Hc Hsz Hlen Hck Ho Hl Hm.
  destruct (set_mmapped_size_frame L HL c0 len) as (Hl1 & Hout & _);
    [lia|]. cbv zeta in Hl1, Hout.
  set (c1 := set_mmapped_size L len c0) in *.
  assert (Hsz1 : off_t_size c1) by (unfold off_t_size in *; by rewrite Hl1).
  destruct (ringbuf_load_cases L e fname w c1 Hc Hsz1)
    as [(w1 & _ & _ & _ & Hwhy)
       | [(_ & _ & _ & _ & Hck1 & _)
         | (_ & _ & _ & _ & _ & w1 & Heq & Hfs & Hmaps & _)]];
    cbv zeta in *; rewrite ?Hl1 in *; fold len in Hck.
  - destruct Hwhy as [? | [? | [? | ?]]]; congruence || lia.
  - rewrite (checks_agree L HL c0 c1 _ Hout) in Hck1. fold len in Hck1.
    congruence.
  - exists w1. split; [exact Heq|]. split; [|exact Hmaps].
    rewrite Hfs. subst c1. unfold set_mmapped_size.
    rewrite store_le_idem
      by (layout_bounds HL; unfold sizeof in Hlen; lia).
    by apply insert_id.
Qed.

(** Attaching is repeatable: once [ringbuf_load] has returned a handle on
    a file, a second [ringbuf_load] of the same path whose system calls
    succeed returns a handle again and leaves every byte of every file
    unchanged (it stores in [mmapped_size] the value the first one
    stored); one more mapping is live. *)
Theorem ringbuf_load_twice (e1 e2 : load_env) (fname : string)
    (w w1 : world) (m : mapping) :
  (forall c : list byte, w_fs w !! fname = Some c -> off_t_size c) ->
  ringbuf_load L e1 fname w = Ret (Some m) w1 ->
  ld_open e2 = true -> ld_lseek e2 = true -> ld_mmap e2 = true ->
  exists w2 : world,
    ringbuf_load L e2 fname w1 = Ret (Some m) w2 /\
    w_fs w2 = w_fs w1 /\
    w_maps w2 = m :: w_maps w1.
Proof.
  intros Hsz Hrun Ho Hl Hm. destruct (w_fs w !! fname) as [c|] eqn:Hc.
  2: { rewrite (ringbuf_load_missing L e1 fname w Hc) in Hrun.
       discriminate Hrun. }
  specialize (Hsz c eq_refl).
  destruct (ringbuf_load_cases L e1 fname w c Hc Hsz)
    as [(w' & Heq & _)
       | [(_ & _ & _ & _ & _ & w' & Heq & _)
         | (_ & _ & Hlen & _ & Hck & w' & Heq & Hfs & _)]];
    cbv zeta in *; rewrite Hrun in Heq; try discriminate Heq.
  injection Heq as -> <-.
  apply (ringbuf_load_reattach e2 fname w1 c); try done.
  rewrite Hfs. apply lookup_insert_eq.
Qed.

End LoadProperties.

Section UnloadProperties.
Variable L : layout.
Hypothesis HL : layout_ok L = true.

Lemma ringbuf_unload_dead (ok : bool) (rb : ptr) (w : world) :
  deref rb w = None -> ringbuf_unload L ok rb w = Fault w.
Proof.
  intros Hd. unfold ringbuf_unload, bind, mem_load. by rewrite Hd.
Qed.

Lemma ringbuf_unload_live (ok : bool) (m : mapping) (w : world)
    (p : string) (c : list byte) :
  deref (Some m) w = Some (p, c) ->
  ringbuf_unload L ok (Some m) w
  = if usize (get_mmapped_size L c) =? 0
    then Ret (-1) (log SysMunmap m.1 false w)
    else if ok
         then Ret 0 (log SysMunmap m.1 true (set_maps (remove_one m) w))
         else Ret (-1) (log SysMunmap m.1 false w).
Proof.
  intros Hd. unfold ringbuf_unload, bind, mem_load, ret. rewrite Hd.
  cbv beta iota. unfold sys_munmap_ptr.
  destruct (usize (get_mmapped_size L c) =? 0); cbv beta iota zeta;
    [reflexivity|].
  destruct ok; reflexivity.
Qed.



Lemma ringbuf_unload_files (ok : bool) (rb : ptr) (w : world) :
  w_fs (world_of (ringbuf_unload L ok rb w)) = w_fs w.
Proof.
  destruct (deref rb w) as [[p c]|] eqn:Hd.
  - destruct rb as [m|]; [|discriminate Hd].
    rewrite (ringbuf_unload_live ok m w p c Hd).
    destruct (_ =? 0); [reflexivity|]. destruct ok; reflexivity.
  - by rewrite ringbuf_unload_dead.
Qed.



(** The ring buffer persists across detach: after [ringbuf_load] and a
    successful [ringbuf_unload], a new [ringbuf_load] of the same path
    whose system calls succeed returns a live handle, on a file with the
    very bytes it had when it was detached. *)
Theorem ringbuf_unload_then_load (e e2 : load_env) (fname : string)
    (w w1 w2 : world) (m : mapping) :
  (forall c : list byte, w_fs w !! fname = Some c -> off_t_size c) ->
  ringbuf_load L e fname w = Ret (Some m) w1 ->
  ringbuf_unload L true (Some m) w1 = Ret 0 w2 ->
  ld_open e2 = true -> ld_lseek e2 = true -> ld_mmap e2 = true ->
  exists w3 : world,
    ringbuf_load L e2 fname w2 = Ret (Some m) w3 /\
    w_fs w3 = w_fs w1 /\
    m ∈ w_maps w3.
Proof.
  intros Hsz Hrun Hun Ho Hl Hm.
  pose proof (ringbuf_unload_files true (Some m) w1) as Hfs2.
  rewrite Hun in Hfs2. cbn [world_of] in Hfs2.
  destruct (w_fs w !! fname) as [c|] eqn:Hc.
  2: { rewrite (ringbuf_load_missing L e fname w Hc) in Hrun.
       discriminate Hrun. }
  specialize (Hsz c eq_refl).
  destruct (ringbuf_load_cases L e fname w c Hc Hsz)
    as [(w' & Heq & _)
       | [(_ & _ & _ & _ & _ & w' & Heq & _)
         | (_ & _ & Hlen & _ & Hck & w' & Heq & Hfs & _)]];
    cbv zeta in *; rewrite Hrun in Heq; try discriminate Heq.
  injection Heq as -> <-.
  destruct (ringbuf_load_reattach L HL e2 fname w2 c)
    as (w3 & Hr3 & Hfs3 & Hmaps3); try done.
  { rewrite Hfs2, Hfs. apply lookup_insert_eq. }
  exists w3. split; [exact Hr3|]. split; [congruence|].
  rewrite Hmaps3. apply list_elem_of_here.
Qed.

End UnloadProperties.

(** A file attached twice is detached twice: each [ringbuf_unload] releases
    one attachment, and only a third one finds no mapping left. *)
Example ringbuf_unload_each_attachment :
  exists w2 w3 w4 : world,
    ringbuf_load spec_layout load_ok "rb" world8_loaded
    = Ret (Some handle8) w2 /\
    ringbuf_unload spec_layout true (Some handle8) w2 = Ret 0 w3 /\
    ringbuf_unload spec_layout true (Some handle8) w3 = Ret 0 w4 /\
    w_maps w4 = [] /\
    ringbuf_unload spec_layout true (Some handle8) w4 = Fault w4.
Proof.
  eexists _, _, _. split; [vm_compute; reflexivity|].
  split; [vm_compute; reflexivity|]. split; [vm_compute; reflexivity|].
  split; vm_compute; reflexivity.
Qed.

(** Instance: the file created with capacity 8. *)
Lemma ringbuf_create_data_area_zero_witness :
  layout_ok spec_layout = true /\
  is_u32 8 /\
  ringbuf_create spec_layout env_ok "rb" 8 empty_world = Ret 0 world8 /\
  w_fs world8 !! "rb" = Some file8 /\
  length file8 = 56%nat /\
  forall i : nat,
    (sizeof_rb spec_layout <= i < length file8)%nat -> file8 !! i = Some x00.
Proof.
  assert (Hu : is_u32 8) by (unfold is_u32; lia).
  assert (Hrun : ringbuf_create spec_layout env_ok "rb" 8 empty_world
                 = Ret 0 world8) by (vm_compute; reflexivity).
  assert (Hc : w_fs world8 !! "rb" = Some file8) by (vm_compute; reflexivity).
  split; [reflexivity|]. split; [exact Hu|]. split; [exact Hrun|].
  split; [exact Hc|]. split; [reflexivity|].
  exact (ringbuf_create_data_area_zero spec_layout eq_refl env_ok "rb" 8
           empty_world world8 file8 Hu Hrun Hc).
Defined.

(** Instance: a stack full of [0xff]; [mmapped_size] reads [2^32 - 1] from
    the new file. *)
Lemma ringbuf_create_writes_stack_bytes_witness :
  layout_ok spec_layout = true /\
  is_u32 8 /\
  ringbuf_create spec_layout env_dirty "rb" 8 empty_world
  = Ret 0 dirty_world8 /\
  w_fs dirty_world8 !! "rb" = Some dirty_file8 /\
  get_mmapped_size spec_layout dirty_file8 = 2 ^ 32 - 1 /\
  (forall i : nat,
     (i < sizeof_rb spec_layout)%nat -> assigned spec_layout i = false ->
     dirty_file8 !! i
     = resize (sizeof_rb spec_layout) x00 (ce_stack env_dirty) !! i) /\
  get_mmapped_size spec_layout dirty_file8
  = get_mmapped_size spec_layout
      (resize (sizeof_rb spec_layout) x00 (ce_stack env_dirty)).
Proof.
  assert (Hu : is_u32 8) by (unfold is_u32; lia).
  assert (Hrun : ringbuf_create spec_layout env_dirty "rb" 8 empty_world
                 = Ret 0 dirty_world8) by (vm_compute; reflexivity).
  assert (Hc : w_fs dirty_world8 !! "rb" = Some dirty_file8)
    by (vm_compute; reflexivity).
  split; [reflexivity|]. split; [exact Hu|]. split; [exact Hrun|].
  split; [exact Hc|]. split; [vm_compute; reflexivity|].
  exact (ringbuf_create_writes_stack_bytes spec_layout eq_refl env_dirty "rb"
           8 empty_world dirty_world8 dirty_file8 Hu Hrun Hc).
Defined.

(** Instance: the two-byte file of [old_world] cannot be removed. *)
Lemma ringbuf_create_unlink_failure_witness :
  layout_ok spec_layout = true /\
  is_u32 8 /\
  is_Some (w_fs old_world !! "rb") /\
  ce_unlink env_unlink_fails = false /\
  exists w' : world,
    ringbuf_create spec_layout env_unlink_fails "rb" 8 old_world
    = Ret (-1) w' /\
    w_fs w' = w_fs old_world /\
    new_events old_world w' [Ev SysUnlink "rb" false; Ev SysOpen "rb" false].
Proof.
  assert (Hu : is_u32 8) by (unfold is_u32; lia).
  assert (Hold : is_Some (w_fs old_world !! "rb"))
    by (exists [x2a; x2a]; vm_compute; reflexivity).
  split; [reflexivity|]. split; [exact Hu|]. split; [exact Hold|].
  split; [reflexivity|].
  exact (ringbuf_create_unlink_failure spec_layout eq_refl env_unlink_fails
           "rb" 8 old_world Hu Hold eq_refl).
Defined.

(** Instance: [ftruncate] fails after a successful [open]. *)
Lemma ringbuf_create_closes_descriptor_witness :
  layout_ok spec_layout = true /\
  is_u32 8 /\
  exists (r : Z) (w' : world) (evs : list event),
    ringbuf_create spec_layout env_no_space "rb" 8 empty_world = Ret r w' /\
    new_events empty_world w' evs /\
    w_maps w' = w_maps empty_world /\
    calls SysOpen evs = 1%nat /\
    (created env_no_space "rb" empty_world = true ->
     calls SysClose evs = 1%nat /\
     last evs = Some (Ev SysClose "rb" (ce_close env_no_space))) /\
    (created env_no_space "rb" empty_world = false ->
     calls SysClose evs = 0%nat).
Proof.
  assert (Hu : is_u32 8) by (unfold is_u32; lia).
  split; [reflexivity|]. split; [exact Hu|].
  exact (ringbuf_create_closes_descriptor spec_layout eq_refl env_no_space
           "rb" 8 empty_world Hu).
Defined.

(** The example files have [off_t] sizes. *)
Lemma old_world_off_t (c : list byte) :
  w_fs old_world !! "rb" = Some c -> off_t_size c.
Proof.
  intros Hc. assert (H : w_fs old_world !! "rb" = Some [x2a; x2a])
    by (vm_compute; reflexivity).
  rewrite H in Hc. injection Hc as <-. unfold off_t_size. vm_compute.
  reflexivity.
Qed.

Lemma world8_off_t (c : list byte) :
  w_fs world8 !! "rb" = Some c ->
  Z.of_nat (length c) < 2 ^ 63 /\
  Z.of_nat (length c) < 2 ^ (8 * Z.of_nat (sz_mmapped_size spec_layout)).
Proof.
  intros Hc. assert (H : w_fs world8 !! "rb" = Some file8)
    by (vm_compute; reflexivity).
  rewrite H in Hc. injection Hc as <-. split; vm_compute; reflexivity.
Qed.

(** Instance: the two-byte file of [old_world] is too small. *)
Lemma ringbuf_load_null_changes_nothing_witness :
  (forall c : list byte, w_fs old_world !! "rb" = Some c -> off_t_size c) /\
  ringbuf_load spec_layout load_ok "rb" old_world
  = Ret None (world_of (ringbuf_load spec_layout load_ok "rb" old_world)) /\
  w_fs (world_of (ringbuf_load spec_layout load_ok "rb" old_world))
  = w_fs old_world /\
  w_maps (world_of (ringbuf_load spec_layout load_ok "rb" old_world))
  = w_maps old_world /\
  exists evs : list event,
    new_events old_world
      (world_of (ringbuf_load spec_layout load_ok "rb" old_world)) evs /\
    calls SysMunmap evs = 0%nat /\
    Ev SysMmap "rb" true ∉ evs.
Proof.
  assert (Hrun : ringbuf_load spec_layout load_ok "rb" old_world
                 = Ret None
                     (world_of (ringbuf_load spec_layout load_ok "rb"
                                  old_world)))
    by (vm_compute; reflexivity).
  split; [exact old_world_off_t|]. split; [exact Hrun|].
  exact (ringbuf_load_null_changes_nothing spec_layout load_ok "rb" old_world
           _ old_world_off_t Hrun).
Defined.

(** Instance: attaching the file created with capacity 8. *)
Lemma ringbuf_load_closes_descriptor_witness :
  (forall c : list byte, w_fs world8 !! "rb" = Some c -> off_t_size c) /\
  ringbuf_load spec_layout load_ok "rb" world8
  = Ret (Some handle8) world8_loaded /\
  exists evs : list event,
    new_events world8 world8_loaded evs /\
    head evs = Some (Ev SysOpen "rb" (opened load_ok "rb" world8)) /\
    calls SysOpen evs = 1%nat /\
    (opened load_ok "rb" world8 = true ->
     calls SysClose evs = 1%nat /\
     last evs = Some (Ev SysClose "rb" (ld_close load_ok))) /\
    (opened load_ok "rb" world8 = false -> evs = [Ev SysOpen "rb" false]).
Proof.
  assert (Hsz : forall c : list byte,
            w_fs world8 !! "rb" = Some c -> off_t_size c)
    by (intros c Hc; exact (proj1 (world8_off_t c Hc))).
  assert (Hrun : ringbuf_load spec_layout load_ok "rb" world8
                 = Ret (Some handle8) world8_loaded)
    by (vm_compute; reflexivity).
  split; [exact Hsz|]. split; [exact Hrun|].
  exact (ringbuf_load_closes_descriptor spec_layout load_ok "rb" world8
           world8_loaded (Some handle8) Hsz Hrun).
Defined.

(** Instance: attaching the file created with capacity 8 twice. *)
Lemma ringbuf_load_twice_witness :
  layout_ok spec_layout = true /\
  (forall c : list byte, w_fs world8 !! "rb" = Some c -> off_t_size c) /\
  ringbuf_load spec_layout load_ok "rb" world8
  = Ret (Some handle8) world8_loaded /\
  exists w2 : world,
    ringbuf_load spec_layout load_ok "rb" world8_loaded
    = Ret (Some handle8) w2 /\
    w_fs w2 = w_fs world8_loaded /\
    w_maps w2 = handle8 :: w_maps world8_loaded.
Proof.
  assert (Hsz : forall c : list byte,
            w_fs world8 !! "rb" = Some c -> off_t_size c)
    by (intros c Hc; exact (proj1 (world8_off_t c Hc))).
  assert (Hrun : ringbuf_load spec_layout load_ok "rb" world8
                 = Ret (Some handle8) world8_loaded)
    by (vm_compute; reflexivity).
  split; [reflexivity|]. split; [exact Hsz|]. split; [exact Hrun|].
  exact (ringbuf_load_twice spec_layout eq_refl load_ok load_ok "rb" world8
           world8_loaded handle8 Hsz Hrun eq_refl eq_refl eq_refl).
Defined.


(** Instance: attach, detach and attach again the file created with
    capacity 8. *)
Lemma ringbuf_unload_then_load_witness :
  layout_ok spec_layout = true /\
  (forall c : list byte, w_fs world8 !! "rb" = Some c -> off_t_size c) /\
  ringbuf_load spec_layout load_ok "rb" world8
  = Ret (Some handle8) world8_loaded /\
  ringbuf_unload spec_layout true (Some handle8) world8_loaded
  = Ret 0 world8_unloaded /\
  exists w3 : world,
    ringbuf_load spec_layout load_ok "rb" world8_unloaded
    = Ret (Some handle8) w3 /\
    w_fs w3 = w_fs world8_loaded /\
    handle8 ∈ w_maps w3.
Proof.
  assert (Hsz : forall c : list byte,
            w_fs world8 !! "rb" = Some c -> off_t_size c)
    by (intros c Hc; exact (proj1 (world8_off_t c Hc))).
  assert (Hrun : ringbuf_load spec_layout load_ok "rb" world8
                 = Ret (Some handle8) world8_loaded)
    by (vm_compute; reflexivity).
  assert (Hun : ringbuf_unload spec_layout true (Some handle8) world8_loaded
                = Ret 0 world8_unloaded)
    by (vm_compute; reflexivity).
  split; [reflexivity|]. split; [exact Hsz|]. split; [exact Hrun|].
  split; [exact Hun|].
  exact (ringbuf_unload_then_load spec_layout eq_refl load_ok load_ok "rb"
           world8 world8_loaded world8_unloaded handle8 Hsz Hrun Hun
           eq_refl eq_refl eq_refl).
Defined.
